(** * Session history summarizer: a shallow embedding of
    [claude_session_summary.py] and its verified properties.

    The definitions follow the source file top to bottom: Python strings
    and [pathlib] paths, the values produced by [json.load], the index
    parser, the orphan finder, the collector, the date grouper, the path
    decoder and the transcript viewer.  The report renderers and the
    command line are not modelled.

    Exceptions are explicit ([result]) and [print] is a writer effect
    ([M]).  The file system is what the program reads of it: the outcome of
    opening and loading each index file, and the name, modification time
    and lines of each log file.  Library calls whose behaviour lies outside
    the repository ([datetime.fromisoformat], [Path.exists], the rendering
    of a value by [str]) are parameters of the functions that call them. *)

From Stdlib Require Import ZArith Ascii String List Bool Lia DecimalString.
From Stdlib Require Import Sorted Permutation.
From stdpp Require Import base option list gmap strings.

Open Scope Z_scope.
Open Scope string_scope.
Open Scope list_scope.

(** ** Python [str] operations *)

(** A Python [str] is modelled by a [string], a sequence of 8-bit
    characters: one character of the model stands for one code point, so
    lengths and slices agree with Python's on text whose code points are
    below 256. *)

Module PyStr.

(** [s[:n]] *)
Definition take (n : nat) (s : string) : string := String.substring 0 n s.

(** [s[n:]] *)
Fixpoint drop (n : nat) (s : string) : string :=
  match n, s with
  | S k, String _ s' => drop k s'
  | _, _ => s
  end.

(** [s.startswith(p)] *)
Fixpoint startswith (p s : string) : bool :=
  match p, s with
  | EmptyString, _ => true
  | String a p', String b s' => Ascii.eqb a b && startswith p' s'
  | String _ _, EmptyString => false
  end.

(** [sub in s] *)
Fixpoint contains (sub s : string) : bool :=
  startswith sub s ||
  match s with
  | EmptyString => false
  | String _ s' => contains sub s'
  end.

(** [s.endswith(suf)] *)
Fixpoint endswith (suf s : string) : bool :=
  String.eqb s suf ||
  match s with
  | EmptyString => false
  | String _ s' => endswith suf s'
  end.

(** [s.rfind(c)] for a one-character [c]; [None] stands for [-1]. *)
Fixpoint rfind (c : ascii) (s : string) : option nat :=
  match s with
  | EmptyString => None
  | String a s' =>
      match rfind c s' with
      | Some i => Some (S i)
      | None => if Ascii.eqb a c then Some 0%nat else None
      end
  end.

(** [s.split(sep)] for a one-character separator. *)
Fixpoint split (sep : ascii) (s : string) : list string :=
  match s with
  | EmptyString => [EmptyString]
  | String c s' =>
      if Ascii.eqb c sep then EmptyString :: split sep s'
      else match split sep s' with
           | h :: t => String c h :: t
           | [] => [String c EmptyString]
           end
  end.

(** [sep.join(l)] *)
Fixpoint join (sep : string) (l : list string) : string :=
  match l with
  | [] => EmptyString
  | x :: l' =>
      match l' with
      | [] => x
      | _ :: _ => x +:+ sep +:+ join sep l'
      end
  end.

(** [s.replace(old, new)]: occurrences are found left to right and do not
    overlap.  [skip] counts the characters of a match still to be
    dropped. *)
Fixpoint replace_from (old new : string) (skip : nat) (s : string) : string :=
  match s with
  | EmptyString => EmptyString
  | String c s' =>
      match skip with
      | S k => replace_from old new k s'
      | O =>
          if startswith old s
          then new +:+ replace_from old new (String.length old - 1) s'
          else String c (replace_from old new 0 s')
      end
  end.

Fixpoint intersperse (new s : string) : string :=
  match s with
  | EmptyString => EmptyString
  | String c s' => String c (new +:+ intersperse new s')
  end.

Definition replace (old new s : string) : string :=
  match old with
  | EmptyString => new +:+ intersperse new s
  | String _ _ => replace_from old new 0 s
  end.

(** [s.strip()] removes leading and trailing white space: the white space
    of ASCII, which is all there is below 128. *)
Definition is_space (c : ascii) : bool :=
  let n := nat_of_ascii c in
  ((9 <=? n) && (n <=? 13) || (28 <=? n) && (n <=? 32))%nat.

Fixpoint lstrip (s : string) : string :=
  match s with
  | EmptyString => EmptyString
  | String c s' => if is_space c then lstrip s' else s
  end.

Fixpoint rstrip (s : string) : string :=
  match s with
  | EmptyString => EmptyString
  | String c s' =>
      match rstrip s' with
      | EmptyString => if is_space c then EmptyString else String c EmptyString
      | r => String c r
      end
  end.

Definition strip (s : string) : string := rstrip (lstrip s).

End PyStr.

(** ** [pathlib] paths (POSIX flavour) *)

Record Path := mkPath {
  anchor : string;        (* "/" for an absolute path, "" for a relative one *)
  parts : list string     (* the components after the anchor *)
}.

Module Pathlib.

(** [str(p)] *)
Definition str (p : Path) : string :=
  match parts p with
  | [] => match anchor p with EmptyString => "." | a => a end
  | _ :: _ => anchor p +:+ PyStr.join "/" (parts p)
  end.

(** [p / x] for a single component [x] *)
Definition child (p : Path) (x : string) : Path :=
  mkPath (anchor p) (parts p ++ [x]).

(** [p.name] *)
Definition name (p : Path) : string := List.last (parts p) "".

(** [p.parent] *)
Definition parent (p : Path) : Path :=
  mkPath (anchor p) (List.removelast (parts p)).

(** [p.stem]: the name without its last suffix; a leading or a trailing
    dot does not start a suffix. *)
Definition stem_of_name (nm : string) : string :=
  match PyStr.rfind "." nm with
  | Some i =>
      if ((0 <? i) && (i <? String.length nm - 1))%nat
      then PyStr.take i nm else nm
  | None => nm
  end.

Definition stem (p : Path) : string := stem_of_name (name p).

End Pathlib.

(** ** Exceptions and output *)

Inductive exn :=
| FileNotFoundError | PermissionError | IsADirectoryError | OSError
| JSONDecodeError | UnicodeDecodeError | ValueError
| AttributeError | TypeError | KeyError | OverflowError.

Definition exn_eqb (a b : exn) : bool :=
  match a, b with
  | FileNotFoundError, FileNotFoundError | PermissionError, PermissionError
  | IsADirectoryError, IsADirectoryError | OSError, OSError
  | JSONDecodeError, JSONDecodeError | UnicodeDecodeError, UnicodeDecodeError
  | ValueError, ValueError | AttributeError, AttributeError
  | TypeError, TypeError | KeyError, KeyError | OverflowError, OverflowError => true
  | _, _ => false
  end.

Inductive result (A : Type) :=
| Ok (a : A)
| Raise (e : exn).
Arguments Ok {A} a.
Arguments Raise {A} e.

(** What the program writes to standard output.  The two warnings
    interpolate an exception, whose text is left symbolic. *)
Inductive event :=
| Print (line : string)
| WarnCouldNotParse (index_path : string) (e : exn)
| WarnCouldNotProcessOrphan (jsonl_file : string) (e : exn).

(** A computation prints and then returns or raises. *)
Definition M (A : Type) : Type := (list event * result A)%type.

Definition ret {A} (a : A) : M A := ([], Ok a).
Definition raise {A} (e : exn) : M A := ([], Raise e).
Definition print (ev : event) : M unit := ([ev], Ok tt).
Definition lift {A} (r : result A) : M A := ([], r).

Definition bind {A B} (m : M A) (k : A -> M B) : M B :=
  match m with
  | (w, Ok a) => let '(w', r) := k a in (w ++ w', r)
  | (w, Raise e) => (w, Raise e)
  end.

Notation "'let*' x ':=' m 'in' k" := (bind m (fun x => k))
  (at level 10, x name, m at level 100, k at level 200).

(** [try: m except <handled> as e: h e] *)
Definition try_except {A} (m : M A) (handled : exn -> bool) (h : exn -> M A) : M A :=
  match m with
  | (w, Raise e) => if handled e then let '(w', r) := h e in (w ++ w', r) else (w, Raise e)
  | (w, Ok a) => (w, Ok a)
  end.

Fixpoint mapM {A B} (f : A -> M B) (l : list A) : M (list B) :=
  match l with
  | [] => ret []
  | x :: l' => let* y := f x in let* ys := mapM f l' in ret (y :: ys)
  end.

(** ** Python values *)

(** [datetime] objects: the wall-clock fields and, for an aware object,
    the UTC offset of its [tzinfo] in microseconds. *)
Record datetime := mkDatetime {
  year : Z; month : Z; day : Z;
  hour : Z; minute : Z; second : Z; microsecond : Z;
  tzinfo : option Z
}.

(** The values [json.load] produces, with [datetime] added for the
    [created] field of a session.  A [dict] lists its items in insertion
    order, one per key.  JSON numbers are kept by their integer value. *)
#[warnings="-register-all"]
Inductive pyval :=
| PNone
| PBool (b : bool)
| PInt (z : Z)
| PStr (s : string)
| PList (l : list pyval)
| PDict (d : list (string * pyval))
| PDatetime (t : datetime).

(** [bool(v)] *)
Definition truthy (v : pyval) : bool :=
  match v with
  | PNone => false
  | PBool b => b
  | PInt z => negb (z =? 0)%Z
  | PStr s => negb (String.eqb s "")
  | PList l => match l with [] => false | _ => true end
  | PDict d => match d with [] => false | _ => true end
  | PDatetime _ => true
  end.

Fixpoint assoc {V} (d : list (string * V)) (k : string) : option V :=
  match d with
  | [] => None
  | (k', v) :: d' => if String.eqb k' k then Some v else assoc d' k
  end.

(** [v.get(k, dflt)]: only a [dict] has the method. *)
Definition py_get (v : pyval) (k : string) (dflt : pyval) : M pyval :=
  match v with
  | PDict d => ret (default dflt (assoc d k))
  | _ => raise AttributeError
  end.

(** [for x in v]: the items the loop visits. *)
Definition py_iter (v : pyval) : M (list pyval) :=
  match v with
  | PList l => ret l
  | PStr s => ret (map (fun c => PStr (String c EmptyString)) (list_ascii_of_string s))
  | PDict d => ret (map (fun kv => PStr (fst kv)) d)
  | _ => raise TypeError
  end.

(** [v[:n]]: strings and lists are sliced; nothing else can be (a [dict]
    answers [TypeError] up to Python 3.11 and [KeyError] from 3.12 on; the
    model raises [TypeError] for both). *)
Definition py_slice_to (n : nat) (v : pyval) : M pyval :=
  match v with
  | PStr s => ret (PStr (PyStr.take n s))
  | PList l => ret (PList (firstn n l))
  | _ => raise TypeError
  end.

(** A session is a Python [dict] with string keys. *)
Abbreviation session := (gmap string pyval).

(** ** Index parser *)

Section IndexParser.

(** [datetime.fromisoformat]; [None] stands for [ValueError]. *)
Variable fromisoformat : string -> option datetime.

(** Lines 45-52: the [created] timestamp of an entry. *)
Definition parse_created (created_str : pyval) : M pyval :=
  if truthy created_str then
    match created_str with
    | PStr s =>
        match fromisoformat (PyStr.replace "Z" "+00:00" s) with
        | Some t => ret (PDatetime t)
        | None => ret PNone
        end
    | _ => raise AttributeError
    end
  else ret PNone.

(** Lines 44-64: one iteration of the loop over the entries. *)
Definition parse_entry (data entry : pyval) : M session :=
  let* created_str := py_get entry "created" (PStr "") in
  let* created := parse_created created_str in
  let* session_id := py_get entry "sessionId" (PStr "") in
  let* summary := py_get entry "summary" (PStr "No summary") in
  let* first_prompt_full := py_get entry "firstPrompt" (PStr "") in
  let* first_prompt := py_slice_to 100 first_prompt_full in
  let* message_count := py_get entry "messageCount" (PInt 0) in
  let* modified := py_get entry "modified" (PStr "") in
  let* original_path := py_get data "originalPath" (PStr "") in
  let* project_path := py_get entry "projectPath" original_path in
  let* git_branch := py_get entry "gitBranch" (PStr "") in
  let* full_path := py_get entry "fullPath" (PStr "") in
  ret (list_to_map
         [("session_id", session_id);
          ("summary", summary);
          ("first_prompt", first_prompt);
          ("message_count", message_count);
          ("created", created);
          ("modified", modified);
          ("project_path", project_path);
          ("git_branch", git_branch);
          ("full_path", full_path)] : session).

Definition caught_by_parser (e : exn) : bool :=
  exn_eqb e JSONDecodeError || exn_eqb e FileNotFoundError.

(** [parse_session_index(index_path)].  [loaded] is the outcome of
    opening the file and running [json.load] on it. *)
Definition parse_session_index (index_path : Path) (loaded : result pyval)
  : M (list session) :=
  try_except
    (let* data := lift loaded in
     let* entries_field := py_get data "entries" (PList []) in
     let* entries := py_iter entries_field in
     mapM (parse_entry data) entries)
    caught_by_parser
    (fun e => let* _ := print (WarnCouldNotParse (Pathlib.str index_path) e) in ret []).

End IndexParser.

(** ** The projects directory as the program sees it *)

(** An entry two levels below the projects directory.  [mtime] is the
    outcome of [stat()] followed by [datetime.fromtimestamp]; [content] is
    the outcome of [open], and each line carries the outcome of reading it
    and of [json.loads] on it. *)
Record log_file := mkLog {
  project : string;
  fname : string;
  mtime : result datetime;
  content : result (list (result pyval))
}.

(** [index_files] is the answer to [glob("*/sessions-index.json")], in
    scan order: the project directory and the outcome of [open] and
    [json.load].  [dir_entries] lists what the project directories hold, in
    scan order. *)
Record filesystem := mkFs {
  projects_dir : Path;
  index_files : list (string * result pyval);
  dir_entries : list log_file
}.

Definition path_of (fs : filesystem) (f : log_file) : Path :=
  Pathlib.child (Pathlib.child (projects_dir fs) (project f)) (fname f).

Definition index_path_of (fs : filesystem) (proj : string) : Path :=
  Pathlib.child (Pathlib.child (projects_dir fs) proj) "sessions-index.json".

(** [projects_dir.glob("*/*.jsonl")] *)
Definition glob_jsonl (fs : filesystem) : list log_file :=
  List.filter (fun f => PyStr.endswith ".jsonl" (fname f)) (dir_entries fs).

(** ** Orphan finder *)

(** Lines 78 and 317: the test that skips subagent files. *)
Definition skipped (p : Path) : bool :=
  PyStr.contains "subagents" (Pathlib.str p) || PyStr.startswith "agent-" (Pathlib.name p).

(** ["message" in data] *)
Definition has_message (data : pyval) : M bool :=
  match data with
  | PDict d => ret (match assoc d "message" with Some _ => true | None => false end)
  | PStr s => ret (PyStr.contains "message" s)
  | PList l =>
      ret (existsb (fun x => match x with PStr s => String.eqb s "message" | _ => false end) l)
  | _ => raise TypeError
  end.

(** [data["message"]] *)
Definition message_of (data : pyval) : M pyval :=
  match data with
  | PDict d => match assoc d "message" with Some v => ret v | None => raise KeyError end
  | _ => raise TypeError
  end.

Definition is_JSONDecodeError (e : exn) : bool := exn_eqb e JSONDecodeError.

(** Lines 89-100: the loop that looks for the first prompt. *)
Fixpoint first_prompt_of (lines : list (result pyval)) : M string :=
  match lines with
  | [] => ret ""
  | line :: rest =>
      let* found :=
        try_except
          (let* data := lift line in
           let* present := has_message data in
           if present then
             let* message := message_of data in
             let* content := py_get message "content" (PStr "") in
             match content with
             | PStr s => ret (Some (PyStr.take 100 s))
             | _ => ret None
             end
           else ret None)
          is_JSONDecodeError
          (fun _ => ret None) in
      match found with
      | Some first_prompt => ret first_prompt
      | None => first_prompt_of rest
      end
  end.

(** Lines 84-112: the record built for one orphan, or the warning. *)
Definition orphan_of (fs : filesystem) (f : log_file) : M (list session) :=
  let jsonl_file := path_of fs f in
  try_except
    (let* created := lift (mtime f) in
     let* lines := lift (content f) in
     let* first_prompt := first_prompt_of lines in
     ret [(list_to_map
             [("session_id", PStr (Pathlib.stem jsonl_file));
              ("summary",
               PStr (if String.eqb first_prompt "" then "Unindexed session"
                     else "Unindexed session: " +:+ PyStr.take 50 first_prompt +:+ "..."));
              ("first_prompt", PStr first_prompt);
              ("message_count", PInt 0);
              ("created", PDatetime created);
              ("project_path",
               PStr (PyStr.replace (Pathlib.str (projects_dir fs) +:+ "/") ""
                       (Pathlib.str (Pathlib.parent jsonl_file))));
              ("full_path", PStr (Pathlib.str jsonl_file))] : session)])
    (fun _ => true)
    (fun e =>
       let* _ := print (WarnCouldNotProcessOrphan (Pathlib.str jsonl_file) e) in
       ret []).

Fixpoint orphans_loop (fs : filesystem) (indexed_sessions : gset string)
    (files : list log_file) : M (list session) :=
  match files with
  | [] => ret []
  | f :: rest =>
      if skipped (path_of fs f) then orphans_loop fs indexed_sessions rest
      else if bool_decide (Pathlib.stem (path_of fs f) ∈ indexed_sessions)
      then orphans_loop fs indexed_sessions rest
      else
        let* found := orphan_of fs f in
        let* orphans := orphans_loop fs indexed_sessions rest in
        ret (found ++ orphans)
  end.

(** [find_orphan_sessions(projects_dir, indexed_sessions)] *)
Definition find_orphan_sessions (fs : filesystem) (indexed_sessions : gset string)
  : M (list session) :=
  orphans_loop fs indexed_sessions (glob_jsonl fs).

(** ** Session collector *)

(** [indexed_session_ids.add(session["session_id"])].  The set is only ever
    asked about file stems, which are strings, and a string equals no value
    of another type: the model keeps the strings of the set.  Lists and
    dicts cannot be hashed. *)
Definition add_session_id (ids : gset string) (s : session) : M (gset string) :=
  match s !! "session_id" with
  | None => raise KeyError
  | Some (PStr id) => ret ({[id]} ∪ ids)
  | Some (PList _) | Some (PDict _) => raise TypeError
  | Some _ => ret ids
  end.

Fixpoint add_session_ids (ids : gset string) (sessions : list session) : M (gset string) :=
  match sessions with
  | [] => ret ids
  | s :: rest => let* ids' := add_session_id ids s in add_session_ids ids' rest
  end.

Section Collector.

Variable fromisoformat : string -> option datetime.

(** Lines 126-130: the loop over the index files. *)
Fixpoint collect_indexed (fs : filesystem) (indexes : list (string * result pyval))
    (all_sessions : list session) (indexed_session_ids : gset string)
  : M (list session * gset string) :=
  match indexes with
  | [] => ret (all_sessions, indexed_session_ids)
  | (proj, loaded) :: rest =>
      let* sessions := parse_session_index fromisoformat (index_path_of fs proj) loaded in
      let* ids := add_session_ids indexed_session_ids sessions in
      collect_indexed fs rest (all_sessions ++ sessions) ids
  end.

(** [collect_all_sessions(projects_dir)]; [fs] is the tree under the
    directory the argument resolves to. *)
Definition collect_all_sessions (fs : filesystem) : M (list session) :=
  let* indexed := collect_indexed fs (index_files fs) [] ∅ in
  let* orphans := find_orphan_sessions fs (snd indexed) in
  ret (fst indexed ++ orphans).

End Collector.

(** ** [datetime] arithmetic *)

Module Datetime.

Definition is_leap (y : Z) : bool :=
  ((y mod 4 =? 0) && (negb (y mod 100 =? 0) || (y mod 400 =? 0)))%Z.

Definition days_in_month (y m : Z) : Z :=
  if (m =? 2)%Z then (if is_leap y then 29 else 28)
  else if ((m =? 4) || (m =? 6) || (m =? 9) || (m =? 11))%Z then 30
  else 31.

Definition days_before_year (y : Z) : Z :=
  let p := y - 1 in p * 365 + p / 4 - p / 100 + p / 400.

Definition days_before_month (y m : Z) : Z :=
  fold_right Z.add 0 (map (days_in_month y) (map Z.of_nat (seq 1 (Z.to_nat (m - 1))))).

(** [t.toordinal()]: 0001-01-01 is day 1. *)
Definition toordinal (t : datetime) : Z :=
  days_before_year (year t) + days_before_month (year t) (month t) + day t.

Definition usec_per_day : Z := 86400000000.

(** The wall-clock reading in microseconds since 0001-01-01T00:00:00. *)
Definition wall (t : datetime) : Z :=
  (toordinal t - 1) * usec_per_day
  + ((hour t * 60 + minute t) * 60 + second t) * 1000000 + microsecond t.

(** [datetime.min] and [datetime.max] *)
Definition min : datetime := mkDatetime 1 1 1 0 0 0 0 None.
Definition max : datetime := mkDatetime 9999 12 31 23 59 59 999999 None.

(** Year, month and day of an ordinal. *)
Definition ord2ymd (ordinal : Z) : Z * Z * Z :=
  let n := ordinal - 1 in
  let n400 := n / 146097 in
  let n := n mod 146097 in
  let n100 := n / 36524 in
  let n := n mod 36524 in
  let n4 := n / 1461 in
  let n := n mod 1461 in
  let n1 := n / 365 in
  let n := n mod 365 in
  let y := n400 * 400 + 1 + n100 * 100 + n4 * 4 + n1 in
  if ((n1 =? 4) || (n100 =? 4))%Z then (y - 1, 12, 31)
  else
    let m := (n + 50) / 32 in
    let preceding := days_before_month y m in
    if (n <? preceding)%Z
    then (y, m - 1, n - (preceding - days_in_month y (m - 1)) + 1)
    else (y, m, n - preceding + 1).

(** The naive [datetime] with a given wall-clock reading. *)
Definition of_wall (us : Z) : datetime :=
  let '(y, m, d) := ord2ymd (us / usec_per_day + 1) in
  let r := us mod usec_per_day in
  mkDatetime y m d
    (r / 3600000000) (r / 60000000 mod 60) (r / 1000000 mod 60) (r mod 1000000)
    None.

(** [t.astimezone(timezone.utc).replace(tzinfo=None)] for an aware [t]
    with UTC offset [off]; leaving the range of [datetime] is an
    [OverflowError]. *)
Definition to_naive_utc (t : datetime) (off : Z) : result datetime :=
  let us := wall t - off in
  if ((us <? 0) || (wall max <? us))%Z then Raise OverflowError
  else Ok (of_wall us).

Definition fields (t : datetime) : list Z :=
  [year t; month t; day t; hour t; minute t; second t; microsecond t].

Fixpoint lex_ltb (a b : list Z) : bool :=
  match a, b with
  | x :: a', y :: b' => (x <? y)%Z || ((x =? y)%Z && lex_ltb a' b')
  | [], _ :: _ => true
  | _, [] => false
  end.

(** [a < b] on naive objects *)
Definition ltb (a b : datetime) : bool := lex_ltb (fields a) (fields b).

Definition digit (z : Z) : ascii := ascii_of_nat (48 + Z.to_nat (z mod 10)).

Definition pad2 (z : Z) : string :=
  String (digit (z / 10)) (String (digit z) EmptyString).

Definition pad4 (z : Z) : string :=
  String (digit (z / 1000)) (String (digit (z / 100)) (pad2 z)).

(** [t.strftime("%Y-%m-%d")], the year on four digits: so it is written
    for the years from 1000 on, and before that where the C library pads
    [%Y]. *)
Definition strftime_date (t : datetime) : string :=
  pad4 (year t) +:+ "-" +:+ pad2 (month t) +:+ "-" +:+ pad2 (day t).

End Datetime.

(** ** Date grouper *)

(** [normalize_datetime(dt)] *)
Definition normalize_datetime (dt : pyval) : M pyval :=
  match dt with
  | PNone => ret PNone
  | PDatetime t =>
      match tzinfo t with
      | Some off => let* u := lift (Datetime.to_naive_utc t off) in ret (PDatetime u)
      | None => ret (PDatetime t)
      end
  | _ => raise AttributeError
  end.

(** [session[key]] *)
Definition py_item (s : session) (key : string) : M pyval :=
  match s !! key with
  | Some v => ret v
  | None => raise KeyError
  end.

(** Lines 155-159: the bucket a session goes to. *)
Definition date_key_of (s : session) : M string :=
  let* created := py_item s "created" in
  if truthy created then
    match created with
    | PDatetime t => ret (Datetime.strftime_date t)
    | _ => raise AttributeError
    end
  else ret "Unknown".

(** Line 164: [normalize_datetime(s["created"]) or datetime.min] *)
Definition sort_key_of (s : session) : M datetime :=
  let* created := py_item s "created" in
  let* normalized := normalize_datetime created in
  match normalized with
  | PDatetime t => ret t
  | _ => ret Datetime.min
  end.

(** [by_date[date_key].append(session)] on a [defaultdict(list)], whose
    items stay in insertion order. *)
Fixpoint bucket_append (by_date : list (string * list session)) (date_key : string)
    (s : session) : list (string * list session) :=
  match by_date with
  | [] => [(date_key, [s])]
  | (k, bucket) :: rest =>
      if String.eqb k date_key then (k, bucket ++ [s]) :: rest
      else (k, bucket) :: bucket_append rest date_key s
  end.

Fixpoint group_loop (by_date : list (string * list session)) (sessions : list session)
  : M (list (string * list session)) :=
  match sessions with
  | [] => ret by_date
  | s :: rest =>
      let* date_key := date_key_of s in
      group_loop (bucket_append by_date date_key s) rest
  end.

(** [list.sort(key=...)] and [sorted]: the keys are computed first, one per
    item, then the items are ordered by [<] on the keys, equal keys keeping
    their order. *)
Section Sort.
Context {K A : Type} (ltb : K -> K -> bool).

Fixpoint insert_by (x : K * A) (l : list (K * A)) : list (K * A) :=
  match l with
  | [] => [x]
  | y :: l' => if ltb (fst y) (fst x) then y :: insert_by x l' else x :: y :: l'
  end.

Fixpoint sort_pairs (l : list (K * A)) : list (K * A) :=
  match l with
  | [] => []
  | x :: l' => insert_by x (sort_pairs l')
  end.
End Sort.

(** Lines 162-165: one bucket sorted in place. *)
Definition sort_bucket (bucket : list session) : M (list session) :=
  let* keys := mapM sort_key_of bucket in
  ret (map snd (sort_pairs Datetime.ltb (combine keys bucket))).

(** [group_sessions_by_date(sessions)]: the items of the returned [dict],
    in order. *)
Definition group_sessions_by_date (sessions : list session)
  : M (list (string * list session)) :=
  let* by_date := group_loop [] sessions in
  let* by_date := mapM (fun kb => let* sorted := sort_bucket (snd kb) in
                                  ret (fst kb, sorted)) by_date in
  ret (sort_pairs String.ltb by_date).

(** ** Path decoder *)

Section Decoder.

(** [Path(test_path).exists()]: the answer, or the [OSError] that
    [exists()] lets through (it answers [False] itself only when the path
    or one of its directories is missing). *)
Variable path_exists : string -> result bool.

(** Lines 180-194: the loop over the parts; [parts] holds [parts[i:]]. *)
Fixpoint decode_loop (path_parts parts : list string) : M (list string) :=
  match parts with
  | [] => ret path_parts
  | part :: rest =>
      match rest with
      | next :: rest' =>
          let combined := part +:+ "_" +:+ next in
          let test_path := "/" +:+ PyStr.join "/" (path_parts ++ [combined]) in
          let* found := lift (path_exists test_path) in
          if found
          then decode_loop (path_parts ++ [combined]) rest'
          else decode_loop (path_parts ++ [part]) rest
      | [] => decode_loop (path_parts ++ [part]) rest
      end
  end.

(** [decode_project_dir_name(encoded)] *)
Definition decode_project_dir_name (encoded : string) : M string :=
  if negb (PyStr.startswith "-" encoded) then ret encoded
  else
    let* path_parts := decode_loop [] (PyStr.split "-" (PyStr.drop 1 encoded)) in
    ret ("/" +:+ PyStr.join "/" path_parts).

End Decoder.

(** The encoding the decoder undoes, as the specification words it: every
    path separator of the path is replaced by the delimiter. *)
Definition encode_path (path : string) : string := PyStr.replace "/" "-" path.

(** The segments of an absolute path. *)
Definition segments (path : string) : list string := PyStr.split "/" (PyStr.drop 1 path).

(** ** Transcript viewer *)

Definition newline : string := String (ascii_of_nat 10) EmptyString.

(** [find_session_file(session_id, projects_dir)]: the matching entry, whose
    path is [path_of fs] of it. *)
Definition session_matches (fs : filesystem) (session_id : string) : list log_file :=
  List.filter
    (fun f => negb (skipped (path_of fs f))
              && PyStr.contains session_id (Pathlib.stem (path_of fs f)))
    (glob_jsonl fs).

Fixpoint print_all (lines : list string) : M unit :=
  match lines with
  | [] => ret tt
  | l :: rest => let* _ := print (Print l) in print_all rest
  end.

Definition find_session_file (session_id : string) (fs : filesystem) : M (option log_file) :=
  let matches := session_matches fs session_id in
  match matches with
  | [m] => ret (Some m)
  | _ :: _ :: _ =>
      let* _ := print (Print ("Multiple sessions match '" +:+ session_id +:+ "':")) in
      let* _ := print_all (map (fun m => "  " +:+ Pathlib.stem (path_of fs m)) matches) in
      ret None
  | [] => ret None
  end.

Section Viewer.

(** [str(v)], which is also how an f-string renders [v]; a string renders
    as itself, the rest is left to the parameter. *)
Variable py_repr : pyval -> string.

Definition py_str (v : pyval) : string :=
  match v with
  | PStr s => s
  | _ => py_repr v
  end.

Definition is_str (v : pyval) (s : string) : bool :=
  match v with
  | PStr s' => String.eqb s' s
  | _ => false
  end.

(** [block.get(key)] *)
Definition py_get_none (v : pyval) (k : string) : M pyval := py_get v k PNone.

(** Lines 343-361: the summary of a [tool_use] block. *)
Definition tool_use_text (block : pyval) : M string :=
  let* tool_name := py_get block "name" (PStr "unknown") in
  let* tool_input := py_get block "input" (PDict []) in
  let file_path label :=
    let* p := py_get tool_input "file_path" (PStr "?") in
    ret ("[" +:+ label +:+ ": " +:+ py_str p +:+ "]") in
  let pattern label :=
    let* p := py_get tool_input "pattern" (PStr "?") in
    ret ("[" +:+ label +:+ ": " +:+ py_str p +:+ "]") in
  if is_str tool_name "Read" then file_path "Reading"
  else if is_str tool_name "Edit" then file_path "Editing"
  else if is_str tool_name "Write" then file_path "Writing"
  else if is_str tool_name "Bash" then
    let* command := py_get tool_input "command" (PStr "") in
    let* cmd := py_slice_to 80 command in
    ret ("[Running: " +:+ py_str cmd +:+ "]")
  else if is_str tool_name "Grep" then pattern "Searching"
  else if is_str tool_name "Glob" then pattern "Finding"
  else ret ("[Tool: " +:+ py_str tool_name +:+ "]").

(** Lines 339-368: what one block appends to [parts]. *)
Definition block_parts (block : pyval) : M (list pyval) :=
  match block with
  | PDict _ =>
      let* type := py_get_none block "type" in
      if is_str type "text" then
        let* text := py_get block "text" (PStr "") in ret [text]
      else if is_str type "tool_use" then
        let* summary := tool_use_text block in ret [PStr summary]
      else if is_str type "tool_result" then
        let* result := py_get block "content" (PStr "") in
        let shown :=
          match result with
          | PStr s =>
              if (200 <? String.length s)%nat
              then PStr (PyStr.take 200 s +:+ "...") else result
          | _ => result
          end in
        ret [PStr ("[Result: " +:+ py_str shown +:+ "]")]
      else ret []
  | PStr _ => ret [block]
  | _ => ret []
  end.

Fixpoint all_parts (blocks : list pyval) : M (list pyval) :=
  match blocks with
  | [] => ret []
  | block :: rest =>
      let* first := block_parts block in
      let* others := all_parts rest in
      ret (first ++ others)
  end.

(** ["\n".join(parts)]: every part has to be a string. *)
Fixpoint strings_of (parts : list pyval) : M (list string) :=
  match parts with
  | [] => ret []
  | PStr s :: rest => let* ss := strings_of rest in ret (s :: ss)
  | _ :: _ => raise TypeError
  end.

(** [extract_message_content(content)] *)
Definition extract_message_content (content : pyval) : M string :=
  match content with
  | PStr s => ret s
  | PList blocks =>
      let* parts := all_parts blocks in
      let* strs := strings_of parts in
      ret (PyStr.join newline strs)
  | _ => ret (py_str content)
  end.

Definition Z_to_string (z : Z) : string := NilZero.string_of_int (Z.to_int z).

(** Lines 386-419: the loop over the lines of the session file. *)
Fixpoint view_loop (max_messages message_count : Z) (lines : list string)
    (file_lines : list (result pyval)) : M (list string * Z) :=
  match file_lines with
  | [] => ret (lines, message_count)
  | line :: rest =>
      if ((0 <? max_messages) && (max_messages <=? message_count))%Z then
        ret (lines ++ [newline +:+ "... truncated (showing "
                       +:+ Z_to_string max_messages +:+ " messages) ..."],
             message_count)
      else
        let* state :=
          try_except
            (let* data := lift line in
             let* present := has_message data in
             if negb present then ret (lines, message_count)
             else
               let* msg := message_of data in
               let* role := py_get msg "role" (PStr "unknown") in
               let* raw := py_get msg "content" (PStr "") in
               let* content := extract_message_content raw in
               if String.eqb (PyStr.strip content) "" then ret (lines, message_count)
               else if is_str role "user" then
                 ret (lines ++ ["## User" +:+ newline; content; ""], message_count + 1)
               else if is_str role "assistant" then
                 let content :=
                   if (2000 <? String.length content)%nat
                   then PyStr.take 2000 content +:+ newline +:+ newline +:+ "... (truncated)"
                   else content in
                 ret (lines ++ ["## Assistant" +:+ newline; content; ""], message_count + 1)
               else ret (lines, message_count + 1))
            is_JSONDecodeError
            (fun _ => ret (lines, message_count)) in
        view_loop max_messages (snd state) (fst state) rest
  end.

Definition not_found (session_id : string) : string := "Session not found: " +:+ session_id.

(** [view_session(session_id, projects_dir, max_messages)] *)
Definition view_session (session_id : string) (fs : filesystem) (max_messages : Z)
  : M string :=
  let* found := find_session_file session_id fs in
  match found with
  | None => ret (not_found session_id)
  | Some session_file =>
      let p := path_of fs session_file in
      let lines :=
        ["# Session: " +:+ Pathlib.stem p;
         "**File:** `" +:+ Pathlib.str p +:+ "`" +:+ newline;
         "---" +:+ newline] in
      let* file_lines := lift (content session_file) in
      let* state := view_loop max_messages 0 lines file_lines in
      let lines :=
        if (snd state =? 0)%Z then fst state ++ ["No messages found in session."]
        else fst state in
      ret (PyStr.join newline lines)
  end.

End Viewer.

(** ** Notions used in the statements *)

(** The entries the parser visits in a loaded index, none when the file
    could not be loaded or holds no iterable [entries]. *)
Definition index_entries (loaded : result pyval) : list pyval :=
  match loaded with
  | Ok data =>
      match bind (py_get data "entries" (PList [])) py_iter with
      | (_, Ok entries) => entries
      | _ => []
      end
  | Raise _ => []
  end.

(** All entries of all index files. *)
Definition indexed_entries (fs : filesystem) : list pyval :=
  flat_map (fun ix => index_entries (snd ix)) (index_files fs).

(** [entry.get("sessionId", "")] *)
Definition entry_session_id (entry : pyval) : pyval :=
  match entry with
  | PDict d => default (PStr "") (assoc d "sessionId")
  | _ => PStr ""
  end.

(** [session["session_id"]] and the like, [None] when the key is absent. *)
Definition field (key : string) (s : session) : option pyval := s !! key.

Definition returned {A} (m : M (list A)) : list A :=
  match m with
  | (_, Ok l) => l
  | _ => []
  end.

Section Parts.
Variable fromisoformat : string -> option datetime.

(** The two halves of the collected list. *)
Definition indexed_ids (fs : filesystem) : gset string :=
  match collect_indexed fromisoformat fs (index_files fs) [] ∅ with
  | (_, Ok (_, ids)) => ids
  | _ => ∅
  end.

Definition indexed_part (fs : filesystem) : list session :=
  match collect_indexed fromisoformat fs (index_files fs) [] ∅ with
  | (_, Ok (all_sessions, _)) => all_sessions
  | _ => []
  end.

Definition orphan_part (fs : filesystem) : list session :=
  returned (find_orphan_sessions fs (indexed_ids fs)).
End Parts.

(** A file lies under a [subagents] path segment, or its name begins with
    [agent-]. *)
Definition subagent_file (p : Path) : bool :=
  existsb (String.eqb "subagents") (parts (Pathlib.parent p))
  || PyStr.startswith "agent-" (Pathlib.name p).

(** The tree without those files. *)
Definition without_subagent_files (fs : filesystem) : filesystem :=
  mkFs (projects_dir fs) (index_files fs)
       (List.filter (fun f => negb (subagent_file (path_of fs f))) (dir_entries fs)).

#[global] Instance datetime_eq_dec : EqDecision datetime.
Proof. solve_decision. Defined.

(** The session goes to the bucket [date_key]. *)
Definition in_bucket (date_key : string) (s : session) : bool :=
  match date_key_of s with
  | (_, Ok k) => String.eqb k date_key
  | _ => false
  end.

(** The session is sorted under the normalized timestamp [t]. *)
Definition has_sort_key (t : datetime) (s : session) : bool :=
  match sort_key_of s with
  | (_, Ok t') => bool_decide (t' = t)
  | _ => false
  end.

(** The nine keys of an indexed session and the seven of an orphan. *)
Definition indexed_keys : gset string :=
  list_to_set ["session_id"; "summary"; "first_prompt"; "message_count"; "created";
               "modified"; "project_path"; "git_branch"; "full_path"].
Definition orphan_keys : gset string :=
  list_to_set ["session_id"; "summary"; "first_prompt"; "message_count"; "created";
               "project_path"; "full_path"].

(** What a computation can raise: only exceptions satisfying [P]. *)
Definition raises_only (P : exn -> Prop) {A} (m : M A) : Prop :=
  forall w e, m = (w, Raise e) -> P e.

Definition lookup_error (e : exn) : Prop := e = AttributeError \/ e = TypeError.

(** The session built from an entry: its identifier and its keys. *)
Definition session_of_entry (entry : pyval) (s : session) : Prop :=
  s !! "session_id" = Some (entry_session_id entry) /\ dom s = indexed_keys.

(** The record built for the log file [f]. *)
Definition orphan_record (fs : filesystem) (f : log_file) (o : session) : Prop :=
  o !! "session_id" = Some (PStr (Pathlib.stem (path_of fs f)))
  /\ o !! "full_path" = Some (PStr (Pathlib.str (path_of fs f)))
  /\ dom o = orphan_keys.

(** The files the loop does not skip. *)
Definition eligible (fs : filesystem) (ids : gset string) (f : log_file) : bool :=
  negb (skipped (path_of fs f))
  && negb (bool_decide (Pathlib.stem (path_of fs f) ∈ ids)).



(** What the lookup prints when more than one file matches. *)
Definition candidates_listing (fs : filesystem) (session_id : string) : list event :=
  Print ("Multiple sessions match '" +:+ session_id +:+ "':")
  :: map (fun m => Print ("  " +:+ Pathlib.stem (path_of fs m)))
         (session_matches fs session_id).

(** For no two neighbouring parts does the path that joins them by [_],
    under the parts before them, exist: the check answers and says no. *)
Definition no_merged_path (path_exists : string -> result bool)
    (path_parts parts : list string) : Prop :=
  forall pre a b post,
    parts = pre ++ a :: b :: post ->
    path_exists ("/" +:+ PyStr.join "/" (path_parts ++ pre ++ [a +:+ "_" +:+ b]))
    = Ok false.

(** A pair of the decorated bucket: the key is the session's. *)
Definition keyed (p : datetime * session) : Prop :=
  exists w, sort_key_of (snd p) = (w, Ok (fst p)).

(** The buckets after the sessions [src] have been appended: one bucket per
    date key, each holding the sessions of its key in the order of [src]. *)
Definition grouped (src : list session) (by_date : list (string * list session)) : Prop :=
  List.NoDup (map fst by_date)
  /\ (forall d b, In (d, b) by_date -> b = List.filter (in_bucket d) src)
  /\ (forall d, ~ In d (map fst by_date) -> List.filter (in_bucket d) src = []).

(** ** Project path display *)

Section Formatter.

(** [str(Path.home())] and [Path(test_path).exists()] *)
Variable home : string.
Variable path_exists : string -> result bool.

(** [format_project_path(path)] *)
Definition format_project_path (path : string) : M string :=
  let* path :=
    if PyStr.startswith "-" path then decode_project_dir_name path_exists path
    else ret path in
  if PyStr.startswith home path
  then ret ("~" +:+ PyStr.drop (String.length home) path)
  else ret path.

End Formatter.

(** ** Further notions used in the statements *)

(** A computation that prints nothing. *)
Definition silent {A} (m : M A) : Prop := forall w r, m = (w, r) -> w = [].






(** A line the search for the first prompt passes over: it is not JSON, or
    it is a [dict] without a [message], or one whose message is a [dict]
    with a [content] that is no string. *)
Definition passed_over (line : result pyval) : bool :=
  match line with
  | Raise e => is_JSONDecodeError e
  | Ok (PDict d) =>
      match assoc d "message" with
      | None => true
      | Some (PDict m) =>
          match default (PStr "") (assoc m "content") with
          | PStr _ => false
          | _ => true
          end
      | Some _ => false
      end
  | Ok _ => false
  end.

(** The warning of the orphan finder. *)
Definition orphan_warning (ev : event) : Prop :=
  exists jsonl_file e, ev = WarnCouldNotProcessOrphan jsonl_file e.

(** The metadata of the orphan built from the log file [f]: the file's
    modification time, a count of 0, the first prompt cut at 100 characters,
    and a summary made of its first 50. *)
Definition orphan_fields (fs : filesystem) (f : log_file) (o : session) : Prop :=
  exists t lines p,
    mtime f = Ok t /\ content f = Ok lines
    /\ first_prompt_of lines = ([], Ok p)
    /\ (String.length p <= 100)%nat
    /\ field "session_id" o = Some (PStr (Pathlib.stem (path_of fs f)))
    /\ field "created" o = Some (PDatetime t)
    /\ field "message_count" o = Some (PInt 0)
    /\ field "first_prompt" o = Some (PStr p)
    /\ field "summary" o
       = Some (PStr (if String.eqb p "" then "Unindexed session"
                     else "Unindexed session: " +:+ PyStr.take 50 p +:+ "..."))
    /\ field "full_path" o = Some (PStr (Pathlib.str (path_of fs f))).

(** A [created] value the grouper goes through: absent, or a timestamp that
    stays in the range of [datetime] when it is taken to UTC. *)
Definition groupable (s : session) : bool :=
  match s !! "created" with
  | Some PNone => true
  | Some (PDatetime t) =>
      match tzinfo t with
      | None => true
      | Some off =>
          ((0 <=? Datetime.wall t - off) && (Datetime.wall t - off <=? Datetime.wall Datetime.max))%Z
      end
  | _ => false
  end.

(** The sort keys of a bucket, in order. *)
Definition keys_of (bucket : list session) (keys : list datetime) : Prop :=
  Forall2 (fun s t => exists w, sort_key_of s = (w, Ok t)) bucket keys.




(** ** Concrete inputs *)

(** A stand-in for [datetime.fromisoformat] that knows one timestamp. *)
Definition iso0 (s : string) : option datetime :=
  if String.eqb s "2024-01-01T10:00:00+00:00"
  then Some (mkDatetime 2024 1 1 10 0 0 0 (Some 0)) else None.

Definition entry_abc : pyval :=
  PDict [("sessionId", PStr "abc"); ("created", PStr "2024-01-01T10:00:00Z");
         ("messageCount", PInt 5)].

Definition index_abc : result pyval := Ok (PDict [("entries", PList [entry_abc])]).

Definition feb2 : datetime := mkDatetime 2024 2 2 9 30 0 0 None.

Definition hello_line : result pyval :=
  Ok (PDict [("message", PDict [("role", PStr "user"); ("content", PStr "hello")])]).

Definition log (proj nm : string) : log_file := mkLog proj nm (Ok feb2) (Ok [hello_line]).

(** One index with the entry [abc]; log files [abc.jsonl] and [xyz.jsonl]. *)
Definition fs_scenario : filesystem :=
  mkFs (mkPath "/" ["home"; "u"; ".claude"; "projects"])
       [("-home-u-foo", index_abc)]
       [log "-home-u-foo" "abc.jsonl"; log "-home-u-foo" "xyz.jsonl"].

(** What is expected of the collector on it. *)
Definition session_abc : session :=
  list_to_map
    [("session_id", PStr "abc"); ("summary", PStr "No summary"); ("first_prompt", PStr "");
     ("message_count", PInt 5);
     ("created", PDatetime (mkDatetime 2024 1 1 10 0 0 0 (Some 0)));
     ("modified", PStr ""); ("project_path", PStr ""); ("git_branch", PStr "");
     ("full_path", PStr "")].

Definition session_xyz : session :=
  list_to_map
    [("session_id", PStr "xyz"); ("summary", PStr "Unindexed session: hello...");
     ("first_prompt", PStr "hello"); ("message_count", PInt 0);
     ("created", PDatetime feb2); ("project_path", PStr "-home-u-foo");
     ("full_path", PStr "/home/u/.claude/projects/-home-u-foo/xyz.jsonl")].

(** The entry [abc] listed by the indexes of two projects. *)
Definition fs_two_indexes : filesystem :=
  mkFs (mkPath "/" ["home"; "u"; ".claude"; "projects"])
       [("-home-u-foo", index_abc); ("-home-u-bar", index_abc)]
       [].

(** A tree with a subagent directory and an [agent-] file beside one
    session log. *)
Definition fs_subagents : filesystem :=
  mkFs (mkPath "/" ["home"; "u"; ".claude"; "projects"])
       []
       [log "subagents" "s1.jsonl"; log "-home-u-foo" "agent-7.jsonl";
        log "-home-u-foo" "xyz.jsonl"].

(** Two logs whose names share the prefix [49f2e931], and the pair [abc],
    [abcdef]. *)
Definition fs_prefix : filesystem :=
  mkFs (mkPath "/" ["home"; "u"; ".claude"; "projects"])
       []
       [log "-home-u-foo" "49f2e931-aaaa.jsonl"; log "-home-u-bar" "49f2e931-bbbb.jsonl";
        log "-home-u-foo" "abc.jsonl"; log "-home-u-foo" "abcdef.jsonl"].

(** A disk on which both [/home/u/my/app] and [/home/u/my_app] exist, and
    one without the latter. *)
Definition disk_both (p : string) : result bool :=
  Ok (existsb (String.eqb p)
        ["/"; "/home"; "/home/u"; "/home/u/my"; "/home/u/my/app"; "/home/u/my_app"]).

Definition disk_one (p : string) : result bool :=
  Ok (existsb (String.eqb p) ["/"; "/home"; "/home/u"; "/home/u/my"; "/home/u/my/app"]).

(** A disk on which checking a name longer than 255 characters fails, as
    [stat] does with [ENAMETOOLONG]. *)
Definition long_name (c : ascii) : string :=
  string_of_list_ascii (repeat c 200).

Definition long_path : string :=
  "/" +:+ long_name "a" +:+ "/" +:+ long_name "b".

Definition disk_name_max (p : string) : result bool :=
  if existsb (fun seg => (255 <? String.length seg)%nat) (PyStr.split "/" p)
  then Raise OSError
  else Ok (existsb (String.eqb p) ["/"; "/" +:+ long_name "a"; long_path]).

(** Three sessions of 1 January 2024: [A] and [B] created at the same
    instant, written with different offsets, and [C] an hour before. *)
Definition ten_utc : datetime := mkDatetime 2024 1 1 10 0 0 0 (Some 0).
Definition ten_utc_as_eleven : datetime := mkDatetime 2024 1 1 11 0 0 0 (Some 3600000000).
Definition nine_naive : datetime := mkDatetime 2024 1 1 9 0 0 0 None.

Definition dated (summary : string) (created : pyval) : session :=
  list_to_map [("summary", PStr summary); ("created", created)].

Definition session_A : session := dated "A" (PDatetime ten_utc).
Definition session_B : session := dated "B" (PDatetime ten_utc_as_eleven).
Definition session_C : session := dated "C" (PDatetime nine_naive).
Definition session_U : session := dated "U" PNone.
Definition session_V : session := dated "V" PNone.

(** An index file holding the JSON text [[]], before a well-formed one. *)
Definition fs_list_index : filesystem :=
  mkFs (mkPath "/" ["home"; "u"; ".claude"; "projects"])
       [("-home-u-bar", Ok (PList [])); ("-home-u-foo", index_abc)]
       [].

(** An entry whose [created] is the number 1704103200. *)
Definition index_numeric_created : result pyval :=
  Ok (PDict [("entries",
              PList [PDict [("sessionId", PStr "abc"); ("created", PInt 1704103200)]])]).

(** An index with an [originalPath] and two entries, one with a
    [projectPath] of its own. *)
Definition items_fallback : list (string * pyval) :=
  [("originalPath", PStr "/home/u/foo");
   ("entries", PList [PDict [("sessionId", PStr "s1")];
                      PDict [("sessionId", PStr "s2"); ("projectPath", PStr "/srv/x")]])].

Definition fs_fallback : filesystem :=
  mkFs (mkPath "/" ["home"; "u"; ".claude"; "projects"])
       [("-home-u-missing", Raise FileNotFoundError); ("-home-u-foo", Ok (PDict items_fallback))]
       [log "-home-u-foo" "s1.jsonl"; log "-home-u-foo" "s3.jsonl"].

(** Lines of a log file the search for the first prompt passes over: one
    that is not JSON, one without a [message], one whose [content] is a list
    of blocks. *)
Definition lines_noise : list (result pyval) :=
  [Raise JSONDecodeError;
   Ok (PDict [("type", PStr "summary")]);
   Ok (PDict [("message", PDict [("role", PStr "assistant");
                                 ("content", PList [PDict [("type", PStr "text");
                                                           ("text", PStr "hi")]])])])].

(** * Sanity checks of the embedding *)

Example split_ex : PyStr.split "-" "home-patrick-foo" = ["home"; "patrick"; "foo"].
Proof. reflexivity. Qed.
Example split_empty_ex : PyStr.split "-" "" = [""].
Proof. reflexivity. Qed.
Example replace_ex : PyStr.replace "Z" "+00:00" "2024-01-01T10:00:00Z" = "2024-01-01T10:00:00+00:00".
Proof. reflexivity. Qed.
Example replace_overlap_ex : PyStr.replace "aa" "b" "aaaaa" = "bba".
Proof. reflexivity. Qed.
Example replace_empty_ex : PyStr.replace "" "-" "abc" = "-a-b-c-".
Proof. reflexivity. Qed.
Example contains_ex : PyStr.contains "subagents" "/p/subagents/x.jsonl" = true.
Proof. reflexivity. Qed.
Example strip_ex : PyStr.strip "  a b  " = "a b".
Proof. reflexivity. Qed.
Example stem_ex : Pathlib.stem_of_name "49f2e931.jsonl" = "49f2e931".
Proof. reflexivity. Qed.
Example stem_hidden_ex : Pathlib.stem_of_name ".jsonl" = ".jsonl".
Proof. reflexivity. Qed.
Example str_ex :
  Pathlib.str (Pathlib.child (Pathlib.child (mkPath "/" ["root"; "proj"]) "-a") "x.jsonl")
  = "/root/proj/-a/x.jsonl".
Proof. reflexivity. Qed.
Example toordinal_ex : Datetime.toordinal (mkDatetime 2024 3 1 0 0 0 0 None) = 738946.
Proof. reflexivity. Qed.
Example toordinal_max_ex : Datetime.toordinal Datetime.max = 3652059.
Proof. reflexivity. Qed.
Example ord2ymd_ex : Datetime.ord2ymd 738946 = (2024, 3, 1).
Proof. reflexivity. Qed.
Example ord2ymd_leap_ex : Datetime.ord2ymd 738945 = (2024, 2, 29).
Proof. reflexivity. Qed.
Example ord2ymd_end_ex : Datetime.ord2ymd 3652059 = (9999, 12, 31).
Proof. reflexivity. Qed.
Example ord2ymd_dec31_ex : Datetime.ord2ymd 739251 = (2024, 12, 31).
Proof. reflexivity. Qed.
Example to_naive_utc_ex :
  Datetime.to_naive_utc (mkDatetime 2024 1 1 23 30 0 0 (Some (-18000000000))) (-18000000000)
  = Ok (mkDatetime 2024 1 2 4 30 0 0 None).
Proof. reflexivity. Qed.
Example to_naive_utc_overflow_ex :
  Datetime.to_naive_utc (mkDatetime 1 1 1 0 0 0 0 (Some 18000000000)) 18000000000
  = Raise OverflowError.
Proof. reflexivity. Qed.
Example strftime_ex : Datetime.strftime_date (mkDatetime 2024 1 2 4 30 0 0 None) = "2024-01-02".
Proof. reflexivity. Qed.
Example encode_ex : encode_path "/home/patrick/foo" = "-home-patrick-foo".
Proof. reflexivity. Qed.
Example decode_ex :
  decode_project_dir_name (fun _ => Ok false) "-home-patrick-foo"
  = ([], Ok "/home/patrick/foo").
Proof. reflexivity. Qed.
Example decode_merge_ex :
  decode_project_dir_name (fun p => Ok (String.eqb "/home/patrick/Info_Gyms" p))
    "-home-patrick-Info-Gyms"
  = ([], Ok "/home/patrick/Info_Gyms").
Proof. reflexivity. Qed.

(** * Properties *)

(** ** Facts about the output-and-exception monad *)

Lemma bind_ok {A B} (m : M A) (k : A -> M B) w b :
  bind m k = (w, Ok b) ->
  exists w1 a w2, m = (w1, Ok a) /\ k a = (w2, Ok b) /\ w = w1 ++ w2.
Proof.
  destruct m as [w1 [a|e]]; simpl.
  - destruct (k a) as [w2 r] eqn:Hk. intros [= <- ->]. eauto 6.
  - discriminate.
Qed.

Lemma bind_ret_l {A B} (a : A) (k : A -> M B) : bind (ret a) k = k a.
Proof. unfold bind, ret. destruct (k a). reflexivity. Qed.

Lemma bind_ext {A B} (m : M A) (k k' : A -> M B) :
  (forall a, k a = k' a) -> bind m k = bind m k'.
Proof. intros H. destruct m as [w [a|e]]; simpl; [rewrite H|]; reflexivity. Qed.

Lemma mapM_ok {A B} (f : A -> M B) l w l' :
  mapM f l = (w, Ok l') -> Forall2 (fun x y => exists w', f x = (w', Ok y)) l l'.
Proof.
  revert w l'. induction l as [|x l IH]; simpl; intros w l' H.
  - inversion H. constructor.
  - apply bind_ok in H as (w1 & y & w2 & Hx & H & _).
    apply bind_ok in H as (w3 & ys & w4 & Hl & H & _).
    inversion H; subst. constructor; eauto.
Qed.

Ltac bind_inv H :=
  let w1 := fresh "w" in let w2 := fresh "w" in let E := fresh "E" in
  let W := fresh "W" in let a := fresh "a" in
  apply bind_ok in H as (w1 & a & w2 & E & H & W).

(** ** Index parser: malformed files and timestamps *)

Section ParserFacts.
Variable fromisoformat : string -> option datetime.

(** A file that is not valid JSON, or is missing, gives the empty list and
    one warning. *)
Lemma parse_session_index_unloadable p e :
  caught_by_parser e = true ->
  parse_session_index fromisoformat p (Raise e)
  = ([WarnCouldNotParse (Pathlib.str p) e], Ok []).
Proof. intros H. unfold parse_session_index. simpl. rewrite H. reflexivity. Qed.

Lemma contains_cons_false c sub s :
  PyStr.contains sub (String c s) = false ->
  PyStr.startswith sub (String c s) = false /\ PyStr.contains sub s = false.
Proof. cbn [PyStr.contains]. intros H. apply orb_false_iff in H. exact H. Qed.

Lemma append_cons c (s t : string) : String c s +:+ t = String c (s +:+ t).
Proof. reflexivity. Qed.

Lemma startswith_char a c s :
  PyStr.startswith (String a EmptyString) (String c s) = Ascii.eqb a c.
Proof. cbn [PyStr.startswith]. destruct s; apply andb_true_r. Qed.

(** Without a [Z] in it the string reaches [fromisoformat] unchanged. *)
Lemma replace_Z_absent s :
  PyStr.contains "Z" s = false -> PyStr.replace "Z" "+00:00" s = s.
Proof.
  unfold PyStr.replace. induction s as [|c s IH]; [reflexivity|].
  intros H. apply contains_cons_false in H as [H H'].
  cbn [PyStr.replace_from]. rewrite H. f_equal. apply IH, H'.
Qed.

(** A trailing [Z] becomes the offset [+00:00]. *)
Lemma replace_Z_trailing s :
  PyStr.contains "Z" s = false ->
  PyStr.replace "Z" "+00:00" (s +:+ "Z") = s +:+ "+00:00".
Proof.
  unfold PyStr.replace. induction s as [|c s IH]; [reflexivity|].
  intros H. apply contains_cons_false in H as [H H'].
  rewrite startswith_char in H.
  rewrite !append_cons. cbn [PyStr.replace_from].
  rewrite startswith_char, H. f_equal. apply IH, H'.
Qed.

(** A string is parsed or dropped, never an exception. *)
Lemma parse_created_str s :
  parse_created fromisoformat (PStr s)
  = ret (match s with
         | EmptyString => PNone
         | _ => match fromisoformat (PyStr.replace "Z" "+00:00" s) with
                | Some t => PDatetime t
                | None => PNone
                end
         end).
Proof.
  unfold parse_created. destruct s as [|c s]; [reflexivity|].
  cbn [truthy String.eqb negb].
  destruct (fromisoformat _); reflexivity.
Qed.

(** A non-empty ISO-8601 string [fromisoformat] accepts is the [created]
    value. *)
Lemma parse_created_accepts s t :
  s <> "" -> PyStr.contains "Z" s = false -> fromisoformat s = Some t ->
  parse_created fromisoformat (PStr s) = ret (PDatetime t).
Proof.
  intros Hne HZ Hs. rewrite parse_created_str, (replace_Z_absent _ HZ), Hs.
  destruct s; [contradiction|reflexivity].
Qed.

(** With a trailing [Z] the parser sees the offset [+00:00]. *)
Lemma parse_created_trailing_Z s t :
  PyStr.contains "Z" s = false -> fromisoformat (s +:+ "+00:00") = Some t ->
  parse_created fromisoformat (PStr (s +:+ "Z")) = ret (PDatetime t).
Proof.
  intros HZ Hs. rewrite parse_created_str, (replace_Z_trailing _ HZ), Hs.
  destruct s; reflexivity.
Qed.


End ParserFacts.

(** ** What a computation can raise *)

Lemma raises_only_ret P {A} (a : A) : raises_only P (ret a).
Proof. intros w e H. discriminate. Qed.

Lemma raises_only_raise (P : exn -> Prop) {A} e : P e -> raises_only P (@raise A e).
Proof. intros He w e' [= _ <-]. exact He. Qed.

Lemma raises_only_bind P {A B} (m : M A) (k : A -> M B) :
  raises_only P m -> (forall a, raises_only P (k a)) -> raises_only P (bind m k).
Proof.
  intros Hm Hk w e. destruct m as [w1 [a|e1]]; simpl.
  - destruct (k a) as [w2 r] eqn:E. intros [= _ ->]. eapply Hk, E.
  - intros [= _ <-]. eapply Hm. reflexivity.
Qed.

Lemma raises_only_mapM P {A B} (f : A -> M B) l :
  (forall x, raises_only P (f x)) -> raises_only P (mapM f l).
Proof.
  intros Hf. induction l as [|x l IH]; simpl.
  - apply raises_only_ret.
  - apply raises_only_bind; [apply Hf|]. intros y.
    apply raises_only_bind; [exact IH|]. intros ys. apply raises_only_ret.
Qed.

Lemma raises_only_py_get v k d : raises_only lookup_error (py_get v k d).
Proof.
  destruct v; simpl;
    solve [apply raises_only_ret | apply raises_only_raise; left; reflexivity].
Qed.

Lemma raises_only_py_iter v : raises_only lookup_error (py_iter v).
Proof.
  destruct v; simpl;
    solve [apply raises_only_ret | apply raises_only_raise; right; reflexivity].
Qed.

Lemma raises_only_py_slice_to n v : raises_only lookup_error (py_slice_to n v).
Proof.
  destruct v; simpl;
    solve [apply raises_only_ret | apply raises_only_raise; right; reflexivity].
Qed.

Section ParserShape.
Variable fromisoformat : string -> option datetime.

Lemma raises_only_parse_created v :
  raises_only lookup_error (parse_created fromisoformat v).
Proof.
  unfold parse_created. destruct (truthy v); [|apply raises_only_ret].
  destruct v; try (apply raises_only_raise; left; reflexivity).
  destruct (fromisoformat _); apply raises_only_ret.
Qed.

Lemma raises_only_parse_entry data entry :
  raises_only lookup_error (parse_entry fromisoformat data entry).
Proof.
  unfold parse_entry.
  repeat (apply raises_only_bind;
          [first [apply raises_only_py_get | apply raises_only_parse_created
                 | apply raises_only_py_slice_to] | intros ?]).
  apply raises_only_ret.
Qed.

Lemma parse_entry_ok data entry w s :
  parse_entry fromisoformat data entry = (w, Ok s) -> session_of_entry entry s.
Proof.
  unfold parse_entry. intros H.
  destruct entry; try discriminate H.
  cbn [py_get] in H.
  repeat first [rewrite bind_ret_l in H | bind_inv H].
  injection H as _ <-. split.
  - reflexivity.
  - rewrite !dom_insert_L, dom_empty_L. reflexivity.
Qed.

(** What the parser returns, entry by entry. *)
Lemma parse_session_index_ok p loaded w sessions :
  parse_session_index fromisoformat p loaded = (w, Ok sessions) ->
  Forall2 session_of_entry (index_entries loaded) sessions.
Proof.
  unfold parse_session_index, index_entries. destruct loaded as [data|e].
  - change (lift (Ok data)) with (ret data). rewrite bind_ret_l.
    set (body := bind (py_get data "entries" (PList [])) _).
    assert (Hbody : raises_only lookup_error body).
    { apply raises_only_bind; [apply raises_only_py_get|]. intros v.
      apply raises_only_bind; [apply raises_only_py_iter|]. intros l.
      apply raises_only_mapM. intros x. apply raises_only_parse_entry. }
    destruct body as [wb [l|e]] eqn:Eb; simpl.
    + intros [= _ <-]. subst body.
      bind_inv Eb. bind_inv Eb.
      unfold bind at 1. rewrite E, E0. rewrite app_nil_r || idtac.
      apply mapM_ok in Eb.
      eapply Forall2_impl; [exact Eb|].
      intros x y [w' Hxy]. eapply parse_entry_ok, Hxy.
    + destruct (Hbody _ _ eq_refl) as [-> | ->]; simpl; discriminate.
  - simpl. destruct (caught_by_parser e); simpl.
    + intros [= _ <-]. constructor.
    + discriminate.
Qed.

End ParserShape.

(** ** Orphan finder: what it returns *)

(** Whatever happens while a file is read, the scan goes on: one record or
    one warning. *)
Lemma orphan_of_total fs f :
  exists w l, orphan_of fs f = (w, Ok l)
              /\ (l = [] \/ exists o, l = [o] /\ orphan_record fs f o).
Proof.
  unfold orphan_of.
  match goal with |- context [try_except ?b _ _] => destruct b as [wb [l|e]] eqn:Eb end;
    simpl.
  - exists wb, l. split; [reflexivity|]. right.
    repeat bind_inv Eb. injection Eb as _ <-.
    eexists. split; [reflexivity|]. split; [reflexivity|]. split; [reflexivity|].
    rewrite !dom_insert_L, dom_empty_L. reflexivity.
  - eexists _, []. split; [reflexivity|]. left. reflexivity.
Qed.

Lemma orphans_loop_ok fs ids files :
  exists w orphans kept,
    orphans_loop fs ids files = (w, Ok orphans)
    /\ sublist kept (List.filter (eligible fs ids) files)
    /\ Forall2 (orphan_record fs) kept orphans.
Proof.
  induction files as [|f files (w & orphans & kept & IH & Hsub & Hrec)].
  - exists [], [], []. repeat split; constructor.
  - cbn [orphans_loop List.filter]. unfold eligible at 1.
    destruct (skipped (path_of fs f)); cbn [negb andb]; [eauto 7|].
    destruct (bool_decide _); cbn [negb]; [eauto 7|].
    destruct (orphan_of_total fs f) as (w1 & l & -> & [-> | (o & -> & Ho)]);
      rewrite IH; cbn.
    + exists (w1 ++ w ++ []), orphans, kept. repeat split; [|assumption].
      apply sublist_cons, Hsub.
    + exists (w1 ++ w ++ []), (o :: orphans), (f :: kept). repeat split.
      * apply sublist_skip, Hsub.
      * constructor; assumption.
Qed.


(** ** Collector: what it returns *)

Lemma add_session_ids_ok sessions : forall ids w ids',
  add_session_ids ids sessions = (w, Ok ids') ->
  forall id, id ∈ ids' <->
             id ∈ ids \/ exists s, In s sessions /\ s !! "session_id" = Some (PStr id).
Proof.
  induction sessions as [|s sessions IH]; intros ids w ids' H id.
  - injection H as _ <-. split; [auto|]. intros [?|(s & [] & _)]. assumption.
  - cbn [add_session_ids] in H. bind_inv H. rewrite (IH _ _ _ H id). clear IH H.
    unfold add_session_id in E.
    destruct (s !! "session_id") as [v|] eqn:Es; [|discriminate].
    assert (Hin : forall P : session -> Prop,
               (exists s', In s' (s :: sessions) /\ P s')
               <-> P s \/ exists s', In s' sessions /\ P s').
    { intros P. split.
      - intros (s' & [<-|Hs'] & HP); eauto.
      - intros [HP|(s' & Hs' & HP)]; [exists s|exists s']; simpl; auto. }
    rewrite (Hin (fun s' => s' !! "session_id" = Some (PStr id))), Es.
    destruct v; try discriminate E; injection E as _ <-;
      rewrite ?elem_of_union, ?elem_of_singleton; intuition congruence.
Qed.

Section CollectorShape.
Variable fromisoformat : string -> option datetime.

Lemma collect_indexed_ok fs indexes : forall all_sessions ids w all_sessions' ids',
  collect_indexed fromisoformat fs indexes all_sessions ids = (w, Ok (all_sessions', ids')) ->
  exists news,
    all_sessions' = all_sessions ++ news
    /\ Forall2 session_of_entry (flat_map (fun ix => index_entries (snd ix)) indexes) news
    /\ forall id, id ∈ ids' <->
                  id ∈ ids \/ exists s, In s news /\ s !! "session_id" = Some (PStr id).
Proof.
  induction indexes as [|[proj loaded] indexes IH]; intros all ids w all' ids' H.
  - injection H as _ <- <-. exists []. rewrite app_nil_r.
    split; [reflexivity|]. split; [constructor|].
    intros id. split; [auto|]. intros [?|(s & [] & _)]. assumption.
  - cbn [collect_indexed] in H. bind_inv H. bind_inv H.
    apply IH in H as (news & -> & Hnews & Hids).
    exists (a ++ news). rewrite app_assoc. split; [reflexivity|]. split.
    + cbn [flat_map snd]. apply Forall2_app; [|exact Hnews].
      eapply parse_session_index_ok, E.
    + intros id. rewrite Hids, (add_session_ids_ok _ _ _ _ E0 id).
      split.
      * intros [[?|(s & Hs & Hid)]|(s & Hs & Hid)]; auto;
          right; exists s; rewrite in_app_iff; auto.
      * intros [?|(s & Hs & Hid)]; auto.
        apply in_app_iff in Hs as [Hs|Hs]; eauto.
Qed.

(** The collected list: the indexed sessions, then the orphans. *)
Lemma collect_all_sessions_ok fs w all_sessions :
  collect_all_sessions fromisoformat fs = (w, Ok all_sessions) ->
  all_sessions = indexed_part fromisoformat fs ++ orphan_part fromisoformat fs
  /\ Forall2 session_of_entry (indexed_entries fs) (indexed_part fromisoformat fs)
  /\ (forall id, id ∈ indexed_ids fromisoformat fs <->
                 exists s, In s (indexed_part fromisoformat fs)
                           /\ s !! "session_id" = Some (PStr id))
  /\ exists kept,
      sublist kept (List.filter (eligible fs (indexed_ids fromisoformat fs)) (glob_jsonl fs))
      /\ Forall2 (orphan_record fs) kept (orphan_part fromisoformat fs).
Proof.
  unfold collect_all_sessions, indexed_part, orphan_part, indexed_ids, indexed_entries.
  intros H. bind_inv H. destruct a as [idx ids]. rewrite E. bind_inv H.
  injection H as <-. cbn [fst snd] in *. rewrite E0. cbn [returned].
  apply collect_indexed_ok in E as (news & -> & Hnews & Hids).
  cbn [app] in *. split; [symmetry; exact H|]. split; [exact Hnews|]. split.
  - intros id. rewrite Hids. split; [|auto].
    intros [Hid|Hid]; [|exact Hid]. apply elem_of_empty in Hid. contradiction.
  - unfold find_orphan_sessions in E0.
    destruct (orphans_loop_ok fs ids (glob_jsonl fs)) as (w' & o & kept & Ho & Hsub & Hrec).
    rewrite Ho in E0. injection E0 as _ <-. eauto.
Qed.

End CollectorShape.

(** ** List facts *)

Lemma Forall2_In_l {A B} (R : A -> B -> Prop) l l' x :
  Forall2 R l l' -> In x l -> exists y, In y l' /\ R x y.
Proof.
  induction 1 as [|a b l l' Hab _ IH]; intros Hx; [destruct Hx|].
  destruct Hx as [<-|Hx].
  - exists b. split; [left; reflexivity|exact Hab].
  - destruct (IH Hx) as (y & Hy & Hxy). exists y. split; [right; exact Hy|exact Hxy].
Qed.

Lemma Forall2_In_r {A B} (R : A -> B -> Prop) l l' y :
  Forall2 R l l' -> In y l' -> exists x, In x l /\ R x y.
Proof.
  induction 1 as [|a b l l' Hab _ IH]; intros Hy; [destruct Hy|].
  destruct Hy as [<-|Hy].
  - exists a. split; [left; reflexivity|exact Hab].
  - destruct (IH Hy) as (x & Hx & Hxy). exists x. split; [right; exact Hx|exact Hxy].
Qed.

Lemma Forall2_map_eq {A B C} (R : A -> B -> Prop) (f : A -> C) (g : B -> C) l l' :
  (forall x y, R x y -> f x = g y) -> Forall2 R l l' -> map f l = map g l'.
Proof.
  intros HR. induction 1 as [|a b l l' Hab _ IH]; [reflexivity|].
  simpl. rewrite IH, (HR _ _ Hab). reflexivity.
Qed.

Lemma sublist_In {A} (l1 l2 : list A) x : sublist l1 l2 -> In x l1 -> In x l2.
Proof.
  induction 1 as [|y l1 l2 _ IH|y l1 l2 _ IH]; simpl; [tauto| |]; intuition.
Qed.

Lemma sublist_map_NoDup {A B} (f : A -> B) (l1 l2 : list A) :
  sublist l1 l2 -> List.NoDup (map f l2) -> List.NoDup (map f l1).
Proof.
  induction 1 as [|y l1 l2 Hs IH|y l1 l2 _ IH]; simpl; intros Hnd.
  - constructor.
  - inversion Hnd as [|? ? Hy Hl2]; subst. constructor; [|exact (IH Hl2)].
    intros Hin. apply Hy. apply in_map_iff in Hin as (x & <- & Hx).
    apply in_map. eapply sublist_In; eassumption.
  - inversion Hnd; subst. auto.
Qed.

Lemma filter_sublist_weaken {A} (p q : A -> bool) l :
  (forall x, p x = true -> q x = true) -> sublist (List.filter p l) (List.filter q l).
Proof.
  intros Hpq. induction l as [|x l IH]; simpl; [constructor|].
  destruct (p x) eqn:Hp.
  - rewrite (Hpq _ Hp). apply sublist_skip, IH.
  - destruct (q x); [apply sublist_cons, IH|exact IH].
Qed.

Lemma NoDup_append {A} (l1 l2 : list A) :
  List.NoDup l1 -> List.NoDup l2 -> (forall x, In x l1 -> In x l2 -> False) ->
  List.NoDup (l1 ++ l2).
Proof.
  induction l1 as [|x l1 IH]; simpl; intros H1 H2 Hd; [exact H2|].
  inversion H1; subst. constructor.
  - rewrite in_app_iff. intros [?|?]; [contradiction|]. eapply Hd; eauto.
  - apply IH; eauto.
Qed.

Lemma NoDup_map_injective {A B} (f : A -> B) (l : list A) :
  (forall x y, f x = f y -> x = y) -> List.NoDup l -> List.NoDup (map f l).
Proof.
  intros Hf. induction 1 as [|x l Hx _ IH]; simpl; constructor; [|exact IH].
  intros Hin. apply in_map_iff in Hin as (y & Hy%Hf & Hin). subst y. contradiction.
Qed.

Lemma NoDup_map_Some {A} (l : list A) : List.NoDup l -> List.NoDup (map Some l).
Proof. apply NoDup_map_injective. intros x y [=]. assumption. Qed.

(** ** The collected list *)

Section CollectedList.
Variable fromisoformat : string -> option datetime.

(** An orphan is the record of a log file that is not skipped and whose
    stem no index lists. *)
Lemma orphan_origin fs w all_sessions o :
  collect_all_sessions fromisoformat fs = (w, Ok all_sessions) ->
  In o (orphan_part fromisoformat fs) ->
  exists f, In f (glob_jsonl fs)
            /\ skipped (path_of fs f) = false
            /\ (Pathlib.stem (path_of fs f) ∉ indexed_ids fromisoformat fs)
            /\ orphan_record fs f o.
Proof.
  intros H Ho. apply collect_all_sessions_ok in H as (_ & _ & _ & kept & Hsub & Hrec).
  destruct (Forall2_In_r _ _ _ _ Hrec Ho) as (f & Hf & Hfo).
  apply (sublist_In _ _ _ Hsub) in Hf. apply filter_In in Hf as [Hf He].
  unfold eligible in He. apply andb_true_iff in He as [Hs Hi].
  apply negb_true_iff in Hs, Hi. apply bool_decide_eq_false in Hi.
  exists f. auto.
Qed.

(** C8 (amended).  Every collected session carries the seven keys
    [session_id], [summary], [first_prompt], [message_count], [created],
    [project_path] and [full_path]; a session that came from an index
    entry carries [modified] and [git_branch] as well, a session promoted
    from an orphan log file carries neither. *)
Theorem collected_session_keys fs w all_sessions :
  collect_all_sessions fromisoformat fs = (w, Ok all_sessions) ->
  all_sessions = indexed_part fromisoformat fs ++ orphan_part fromisoformat fs
  /\ Forall (fun s => dom s = indexed_keys) (indexed_part fromisoformat fs)
  /\ Forall (fun s => dom s = orphan_keys
                      /\ field "modified" s = None /\ field "git_branch" s = None)
            (orphan_part fromisoformat fs).
Proof.
  intros H. pose proof (collect_all_sessions_ok _ _ _ _ H) as (Hall & Hidx & _ & _).
  split; [exact Hall|]. split; apply List.Forall_forall; intros s Hs.
  - destruct (Forall2_In_r _ _ _ _ Hidx Hs) as (e & _ & _ & Hdom). exact Hdom.
  - destruct (orphan_origin _ _ _ _ H Hs) as (f & _ & _ & _ & _ & _ & Hdom).
    split; [exact Hdom|]. unfold field.
    split; apply not_elem_of_dom; rewrite Hdom; vm_compute; intros [=].
Qed.

(** No orphan carries the identifier of an indexed session. *)
Lemma orphan_id_not_indexed fs w all_sessions o s :
  collect_all_sessions fromisoformat fs = (w, Ok all_sessions) ->
  In o (orphan_part fromisoformat fs) -> In s (indexed_part fromisoformat fs) ->
  field "session_id" o <> field "session_id" s.
Proof.
  intros H Ho Hs Heq.
  destruct (orphan_origin _ _ _ _ H Ho) as (f & _ & _ & Hni & Hid & _).
  apply collect_all_sessions_ok in H as (_ & _ & Hids & _).
  apply Hni, Hids. exists s. split; [exact Hs|].
  unfold field in Heq. rewrite <- Heq. exact Hid.
Qed.

(** C2.  An identifier that is the [sessionId] of an entry of an index
    file is never the identifier of an orphan in the collected list: the
    list is the indexed sessions followed by the orphans, the orphans are
    found once against the identifiers of all indexes, which hold this one,
    and no orphan carries it. *)
Theorem indexed_id_never_orphan fs w all_sessions proj loaded d v o :
  collect_all_sessions fromisoformat fs = (w, Ok all_sessions) ->
  In (proj, loaded) (index_files fs) ->
  In (PDict d) (index_entries loaded) ->
  assoc d "sessionId" = Some v ->
  In o (orphan_part fromisoformat fs) ->
  all_sessions = indexed_part fromisoformat fs ++ orphan_part fromisoformat fs
  /\ (forall id, v = PStr id -> id ∈ indexed_ids fromisoformat fs)
  /\ field "session_id" o <> Some v.
Proof.
intros H Hix He Hv Ho.
assert (Hin : In (PDict d) (indexed_entries fs)).
{ unfold indexed_entries. apply in_flat_map. exists (proj, loaded). auto. }
pose proof (collect_all_sessions_ok _ _ _ _ H) as (Hall & Hidx & Hids & _).
destruct (Forall2_In_l _ _ _ _ Hidx Hin) as (s & Hs & Hsid & _).
cbn [entry_session_id] in Hsid. rewrite Hv in Hsid. cbn [default] in Hsid.
split; [exact Hall|]. split.
- intros id ->. apply Hids. exists s. auto.
- intros Heq. apply (orphan_id_not_indexed _ _ _ _ _ H Ho Hs).
  unfold field in *. rewrite Hsid. exact Heq.
Qed.

(** C1 (amended).  The identifiers of the collected list are pairwise
    distinct whenever the entries of all index files have pairwise
    distinct [sessionId]s and the log files that are not skipped have
    pairwise distinct stems; an identifier that is both indexed and the
    stem of a log file occurs once. *)
Theorem session_ids_unique fs w all_sessions :
  collect_all_sessions fromisoformat fs = (w, Ok all_sessions) ->
  List.NoDup (map entry_session_id (indexed_entries fs)) ->
  List.NoDup (map (fun f => Pathlib.stem (path_of fs f))
                  (List.filter (fun f => negb (skipped (path_of fs f))) (glob_jsonl fs))) ->
  List.NoDup (map (field "session_id") all_sessions).
Proof.
  intros H Hidx Hlog.
  pose proof (collect_all_sessions_ok _ _ _ _ H) as (-> & Hent & _ & kept & Hsub & Hrec).
  rewrite map_app. apply NoDup_append.
  - rewrite <- (Forall2_map_eq session_of_entry
                  (fun e => Some (entry_session_id e)) (field "session_id") _ _
                  (fun x y Hxy => eq_sym (proj1 Hxy)) Hent).
    rewrite <- (map_map entry_session_id Some). apply NoDup_map_Some, Hidx.
  - rewrite <- (Forall2_map_eq (orphan_record fs)
                  (fun f => Some (PStr (Pathlib.stem (path_of fs f)))) (field "session_id") _ _
                  (fun x y Hxy => eq_sym (proj1 Hxy)) Hrec).
    rewrite <- (map_map (fun f => Pathlib.stem (path_of fs f)) (fun x => Some (PStr x))).
    rewrite <- (map_map PStr Some). apply NoDup_map_Some.
    apply NoDup_map_injective; [intros x y [=]; assumption|].
    eapply sublist_map_NoDup; [|exact Hlog].
    etransitivity; [exact Hsub|].
    apply filter_sublist_weaken. intros f. unfold eligible.
    intros Hf. apply andb_true_iff in Hf. tauto.
  - intros x Hx Ho.
    apply in_map_iff in Hx as (s & <- & Hs). apply in_map_iff in Ho as (o & Heq & Ho).
    exact (orphan_id_not_indexed _ _ _ _ _ H Ho Hs Heq).
Qed.

End CollectedList.

(** ** The collected list on concrete trees *)

(** The scenario of one indexed session and one orphan: two sessions, the
    log file of the indexed one adding nothing. *)
Example collect_scenario :
  collect_all_sessions iso0 fs_scenario = ([], Ok [session_abc; session_xyz]).
Proof. vm_compute. reflexivity. Qed.

Example collect_scenario_parts :
  indexed_part iso0 fs_scenario = [session_abc]
  /\ orphan_part iso0 fs_scenario = [session_xyz].
Proof. split; vm_compute; reflexivity. Qed.

(** C8, as stated, fails: the session promoted from [xyz.jsonl] has neither
    a [modified] nor a [git_branch] field. *)
Lemma orphan_lacks_modified_and_git_branch :
  exists w all_sessions,
    collect_all_sessions iso0 fs_scenario = (w, Ok all_sessions)
    /\ map (field "session_id") all_sessions = [Some (PStr "abc"); Some (PStr "xyz")]
    /\ map (field "modified") all_sessions = [Some (PStr ""); None]
    /\ map (field "git_branch") all_sessions = [Some (PStr ""); None].
Proof.
  exists (fst (collect_all_sessions iso0 fs_scenario)),
         (returned (collect_all_sessions iso0 fs_scenario)).
  repeat split; vm_compute; reflexivity.
Qed.

Lemma collected_session_keys_witness :
  returned (collect_all_sessions iso0 fs_scenario)
  = indexed_part iso0 fs_scenario ++ orphan_part iso0 fs_scenario
  /\ Forall (fun s => dom s = indexed_keys) (indexed_part iso0 fs_scenario)
  /\ Forall (fun s => dom s = orphan_keys
                      /\ field "modified" s = None /\ field "git_branch" s = None)
            (orphan_part iso0 fs_scenario).
Proof.
  apply (collected_session_keys iso0 fs_scenario
           (fst (collect_all_sessions iso0 fs_scenario))).
  vm_compute. reflexivity.
Defined.

(** C1, as stated, fails: an identifier listed by two index files is
    collected twice. *)
Lemma session_id_collected_twice :
  exists w all_sessions,
    collect_all_sessions iso0 fs_two_indexes = (w, Ok all_sessions)
    /\ map (field "session_id") all_sessions = [Some (PStr "abc"); Some (PStr "abc")]
    /\ ~ List.NoDup (map (field "session_id") all_sessions).
Proof.
  exists (fst (collect_all_sessions iso0 fs_two_indexes)),
         (returned (collect_all_sessions iso0 fs_two_indexes)).
  assert (E : map (field "session_id") (returned (collect_all_sessions iso0 fs_two_indexes))
              = [Some (PStr "abc"); Some (PStr "abc")]) by (vm_compute; reflexivity).
  split; [vm_compute; reflexivity|]. split; [exact E|].
  rewrite E. intros Hnd. inversion Hnd as [|? ? Hin _]. apply Hin. left. reflexivity.
Qed.

Lemma session_ids_unique_witness :
  List.NoDup (map (field "session_id") (returned (collect_all_sessions iso0 fs_scenario))).
Proof.
  apply (session_ids_unique iso0 fs_scenario (fst (collect_all_sessions iso0 fs_scenario))).
  - vm_compute. reflexivity.
  - vm_compute. repeat constructor. intros [].
  - vm_compute. repeat constructor; simpl; intuition discriminate.
Defined.

Lemma indexed_id_never_orphan_witness :
  [session_abc; session_xyz] = indexed_part iso0 fs_scenario ++ orphan_part iso0 fs_scenario
  /\ (forall id, PStr "abc" = PStr id -> id ∈ indexed_ids iso0 fs_scenario)
  /\ field "session_id" session_xyz <> Some (PStr "abc").
Proof.
apply (indexed_id_never_orphan iso0 fs_scenario [] [session_abc; session_xyz]
         "-home-u-foo" index_abc
         [("sessionId", PStr "abc"); ("created", PStr "2024-01-01T10:00:00Z");
          ("messageCount", PInt 5)]
         (PStr "abc") session_xyz).
- vm_compute. reflexivity.
- left. reflexivity.
- left. reflexivity.
- reflexivity.
- vm_compute. left. reflexivity.
Defined.

(** ** Index files the parser does not survive *)

(** C4: the code departs from it.  A missing file and a file that is not
    JSON are skipped with a warning ([parse_session_index_unloadable]), but
    a file holding the well-formed JSON text [[]] makes
    [parse_session_index] raise [AttributeError]; nothing catches it, so
    [collect_all_sessions] raises too and the index after it is never
    read. *)
Theorem index_holding_a_list_aborts_collection :
  forall fromisoformat,
    parse_session_index fromisoformat
      (index_path_of fs_list_index "-home-u-bar") (Ok (PList []))
    = ([], Raise AttributeError)
    /\ collect_all_sessions fromisoformat fs_list_index = ([], Raise AttributeError).
Proof. intros iso. split; reflexivity. Qed.

(** The same file, unreadable as JSON, would have been skipped. *)
Example malformed_index_is_skipped :
  collect_all_sessions iso0
    (mkFs (projects_dir fs_list_index)
          [("-home-u-bar", Raise JSONDecodeError); ("-home-u-foo", index_abc)] [])
  = ([WarnCouldNotParse "/home/u/.claude/projects/-home-u-bar/sessions-index.json"
        JSONDecodeError],
     Ok [session_abc]).
Proof. vm_compute. reflexivity. Qed.

(** Neither is an entry whose [firstPrompt] is [null], nor a file that
    cannot be read. *)
Example null_first_prompt_raises :
  parse_session_index iso0 (index_path_of fs_list_index "-home-u-bar")
    (Ok (PDict [("entries", PList [PDict [("sessionId", PStr "abc");
                                          ("firstPrompt", PNone)]])]))
  = ([], Raise TypeError).
Proof. reflexivity. Qed.

Example unreadable_index_raises :
  parse_session_index iso0 (index_path_of fs_list_index "-home-u-bar") (Raise PermissionError)
  = ([], Raise PermissionError).
Proof. reflexivity. Qed.

(** C5: the code departs from it.  A [created] value that is a string is
    parsed or dropped ([parse_created_str], [parse_created_trailing_Z]), but
    a number reaches [.replace] and raises [AttributeError]; the parser
    raises with it. *)
Theorem numeric_created_raises :
  forall fromisoformat p,
    parse_created fromisoformat (PInt 1704103200) = ([], Raise AttributeError)
    /\ parse_session_index fromisoformat p index_numeric_created
       = ([], Raise AttributeError).
Proof. intros iso p. split; reflexivity. Qed.

(** ** Substrings and paths *)

Lemma startswith_refl s : PyStr.startswith s s = true.
Proof.
induction s as [|c s IH]; [reflexivity|].
cbn [PyStr.startswith]. rewrite Ascii.eqb_refl. exact IH.
Qed.

Lemma startswith_append s t : PyStr.startswith s (s +:+ t) = true.
Proof.
induction s as [|c s IH]; [destruct t; reflexivity|].
rewrite append_cons. cbn [PyStr.startswith]. rewrite Ascii.eqb_refl. exact IH.
Qed.

Lemma contains_refl s : PyStr.contains s s = true.
Proof. destruct s; cbn [PyStr.contains]; rewrite startswith_refl; reflexivity. Qed.

Lemma contains_append_l sub s t :
  PyStr.contains sub s = true -> PyStr.contains sub (t +:+ s) = true.
Proof.
intros H. induction t as [|c t IH]; [exact H|].
rewrite append_cons. cbn [PyStr.contains]. rewrite IH. apply orb_true_r.
Qed.

Lemma contains_prefix sub t : PyStr.contains sub (sub +:+ t) = true.
Proof.
destruct (sub +:+ t) eqn:E; cbn [PyStr.contains]; rewrite <- E, startswith_append;
  reflexivity.
Qed.

Lemma contains_join seg sep l :
  In seg l -> PyStr.contains seg (PyStr.join sep l) = true.
Proof.
induction l as [|x l IH]; [intros []|].
intros [->|Hin]; cbn [PyStr.join]; destruct l as [|y l].
- apply contains_refl.
- apply contains_prefix.
- destruct Hin.
- apply contains_append_l, contains_append_l, IH, Hin.
Qed.

Lemma contains_str seg p : In seg (parts p) -> PyStr.contains seg (Pathlib.str p) = true.
Proof.
intros H. unfold Pathlib.str. destruct (parts p) as [|x l] eqn:E; [destruct H|].
apply contains_append_l, contains_join, H.
Qed.

Lemma In_removelast {A} (l : list A) x : In x (List.removelast l) -> In x l.
Proof.
induction l as [|y l IH]; [intros []|].
cbn [List.removelast]. destruct l as [|z l]; [intros []|].
intros [->|H]; [left; reflexivity|right; apply IH, H].
Qed.

Lemma existsb_eqb_In s l : existsb (String.eqb s) l = true -> In s l.
Proof.
intros H. apply existsb_exists in H as (x & Hx & Heq).
apply String.eqb_eq in Heq. subst x. exact Hx.
Qed.

(** A file under a [subagents] segment, or named [agent-...], is skipped by
    the test both loops share. *)
Lemma subagent_file_skipped p : subagent_file p = true -> skipped p = true.
Proof.
unfold subagent_file, skipped. intros H. apply orb_true_iff in H as [H|H].
- apply existsb_eqb_In in H. apply In_removelast in H.
  rewrite (contains_str _ _ H). reflexivity.
- rewrite H. apply orb_true_r.
Qed.

(** ** Subagent files leave no trace *)

Lemma filter_filter_comm {A} (p q : A -> bool) l :
  List.filter p (List.filter q l) = List.filter q (List.filter p l).
Proof.
induction l as [|x l IH]; [reflexivity|].
cbn [List.filter]. destruct (p x) eqn:Hp, (q x) eqn:Hq; cbn [List.filter];
  rewrite ?Hp, ?Hq, IH; reflexivity.
Qed.

Lemma glob_without_subagent_files fs :
  glob_jsonl (without_subagent_files fs)
  = List.filter (fun f => negb (subagent_file (path_of fs f))) (glob_jsonl fs).
Proof. unfold glob_jsonl, without_subagent_files. cbn [dir_entries]. apply filter_filter_comm. Qed.

Lemma orphans_loop_without fs ids files :
  orphans_loop (without_subagent_files fs) ids
    (List.filter (fun f => negb (subagent_file (path_of fs f))) files)
  = orphans_loop fs ids files.
Proof.
induction files as [|f files IH]; [reflexivity|].
cbn [List.filter orphans_loop].
destruct (subagent_file (path_of fs f)) eqn:Hs; cbn [negb].
- rewrite (subagent_file_skipped _ Hs). exact IH.
- cbn [orphans_loop]. change (path_of (without_subagent_files fs) f) with (path_of fs f).
  change (orphan_of (without_subagent_files fs) f) with (orphan_of fs f).
  rewrite IH. reflexivity.
Qed.

Lemma session_matches_without fs q :
  session_matches (without_subagent_files fs) q = session_matches fs q.
Proof.
unfold session_matches. rewrite glob_without_subagent_files.
change (path_of (without_subagent_files fs)) with (path_of fs).
induction (glob_jsonl fs) as [|f files IH]; [reflexivity|].
cbn [List.filter]. destruct (subagent_file (path_of fs f)) eqn:Hs; cbn [negb List.filter].
- rewrite (subagent_file_skipped _ Hs). cbn [negb andb]. exact IH.
- rewrite IH. reflexivity.
Qed.

Lemma collect_indexed_without iso fs indexes all_sessions ids :
  collect_indexed iso (without_subagent_files fs) indexes all_sessions ids
  = collect_indexed iso fs indexes all_sessions ids.
Proof.
revert all_sessions ids. induction indexes as [|[proj loaded] indexes IH]; intros; [reflexivity|].
cbn [collect_indexed].
change (index_path_of (without_subagent_files fs) proj) with (index_path_of fs proj).
apply bind_ext. intros sessions. apply bind_ext. intros ids'. apply IH.
Qed.

(** C6.  A file under a [subagents] path segment, or whose name begins with
    [agent-], leaves no trace: the orphan finder, the collector and the
    transcript viewer's lookup answer as they do on the tree without such
    files, in what they return and in what they print, and no such file is
    among the matches the lookup returns or lists, whatever the query. *)
Theorem subagent_files_never_seen :
  forall fs,
    (forall ids,
        find_orphan_sessions fs ids = find_orphan_sessions (without_subagent_files fs) ids)
    /\ (forall fromisoformat,
          collect_all_sessions fromisoformat fs
          = collect_all_sessions fromisoformat (without_subagent_files fs))
    /\ (forall session_id,
          find_session_file session_id fs
          = find_session_file session_id (without_subagent_files fs))
    /\ (forall session_id,
          Forall (fun m => subagent_file (path_of fs m) = false)
                 (session_matches fs session_id))
    /\ (forall ids,
          Forall (fun o => exists f, In f (glob_jsonl fs)
                                     /\ subagent_file (path_of fs f) = false
                                     /\ orphan_record fs f o)
                 (returned (find_orphan_sessions fs ids))).
Proof.
intros fs.
assert (Ho : forall ids,
           find_orphan_sessions fs ids = find_orphan_sessions (without_subagent_files fs) ids).
{ intros ids. unfold find_orphan_sessions.
  rewrite glob_without_subagent_files, orphans_loop_without. reflexivity. }
split; [exact Ho|]. split; [|split; [|split]].
- intros iso. unfold collect_all_sessions.
  change (index_files (without_subagent_files fs)) with (index_files fs).
  rewrite collect_indexed_without. apply bind_ext. intros indexed.
  rewrite Ho. reflexivity.
- intros q. unfold find_session_file. rewrite session_matches_without. reflexivity.
- intros q. apply List.Forall_forall. intros m Hm.
  apply filter_In in Hm as [_ Hm]. apply andb_true_iff in Hm as [Hm _].
  destruct (subagent_file (path_of fs m)) eqn:Hs; [|reflexivity].
  rewrite (subagent_file_skipped _ Hs) in Hm. discriminate.
- intros ids. apply List.Forall_forall. intros o Hin. unfold find_orphan_sessions in Hin.
  destruct (orphans_loop_ok fs ids (glob_jsonl fs)) as (w & os & kept & E & Hsub & Hrec).
  rewrite E in Hin. cbn [returned] in Hin.
  destruct (Forall2_In_r _ _ _ _ Hrec Hin) as (f & Hf & Hfo).
  apply (sublist_In _ _ _ Hsub) in Hf. apply filter_In in Hf as [Hf He].
  exists f. split; [exact Hf|]. split; [|exact Hfo].
  unfold eligible in He. apply andb_true_iff in He as [He _].
  destruct (subagent_file (path_of fs f)) eqn:Hs; [|reflexivity].
  rewrite (subagent_file_skipped _ Hs) in He. discriminate.
Qed.

Example subagent_files_ignored :
  map (field "session_id") (returned (find_orphan_sessions fs_subagents ∅))
  = [Some (PStr "xyz")]
  /\ find_session_file "s1" fs_subagents = ([], Ok None)
  /\ find_session_file "agent" fs_subagents = ([], Ok None).
Proof. repeat split; vm_compute; reflexivity. Qed.

(** ** Transcript lookup *)




Lemma print_all_lines lines : print_all lines = (map Print lines, Ok tt).
Proof.
induction lines as [|l lines IH]; [reflexivity|].
cbn [print_all]. rewrite IH. reflexivity.
Qed.

Lemma find_session_file_ambiguous fs session_id :
  (2 <= length (session_matches fs session_id))%nat ->
  find_session_file session_id fs = (candidates_listing fs session_id, Ok None).
Proof.
unfold find_session_file, candidates_listing. intros H.
destruct (session_matches fs session_id) as [|m1 [|m2 ms]] eqn:E; simpl in H; try lia.
rewrite print_all_lines. unfold print, bind, ret. cbn [app].
rewrite app_nil_r, map_map. reflexivity.
Qed.

Lemma view_session_none py_repr fs session_id max_messages w :
  find_session_file session_id fs = (w, Ok None) ->
  view_session py_repr session_id fs max_messages = (w, Ok (not_found session_id)).
Proof.
intros H. unfold view_session. rewrite H. unfold bind, ret. rewrite app_nil_r. reflexivity.
Qed.

Lemma two_members_length {A} (l : list A) x y :
  In x l -> In y l -> x <> y -> (2 <= length l)%nat.
Proof.
destruct l as [|a [|b l]]; simpl; try lia; intuition congruence.
Qed.




(** C10.  An exact match is not preferred: when the query is the stem of
    one file that is not skipped and is properly contained in the stem of
    another, the lookup returns no file and the viewer returns the
    not-found message. *)
Theorem exact_match_not_preferred py_repr fs session_id max_messages f1 f2 :
  In f1 (glob_jsonl fs) -> skipped (path_of fs f1) = false ->
  Pathlib.stem (path_of fs f1) = session_id ->
  In f2 (glob_jsonl fs) -> skipped (path_of fs f2) = false ->
  PyStr.contains session_id (Pathlib.stem (path_of fs f2)) = true ->
  Pathlib.stem (path_of fs f2) <> session_id ->
  find_session_file session_id fs = (candidates_listing fs session_id, Ok None)
  /\ view_session py_repr session_id fs max_messages
     = (candidates_listing fs session_id, Ok (not_found session_id)).
Proof.
intros Hf1 Hs1 Hq Hf2 Hs2 Hc Hne.
assert (H : find_session_file session_id fs = (candidates_listing fs session_id, Ok None)).
{ apply find_session_file_ambiguous. apply (two_members_length _ f1 f2).
  - apply filter_In. split; [exact Hf1|]. rewrite Hs1, Hq, contains_refl. reflexivity.
  - apply filter_In. split; [exact Hf2|]. rewrite Hs2, Hc. reflexivity.
  - intros ->. contradiction. }
split; [exact H|]. apply view_session_none, H.
Qed.

Lemma exact_match_not_preferred_witness :
  find_session_file "abc" fs_prefix
  = ([Print "Multiple sessions match 'abc':"; Print "  abc"; Print "  abcdef"], Ok None)
  /\ view_session (fun _ => "") "abc" fs_prefix 0
     = ([Print "Multiple sessions match 'abc':"; Print "  abc"; Print "  abcdef"],
        Ok "Session not found: abc").
Proof.
apply (exact_match_not_preferred (fun _ => "") fs_prefix "abc" 0
         (log "-home-u-foo" "abc.jsonl") (log "-home-u-foo" "abcdef.jsonl")).
- vm_compute. right. right. left. reflexivity.
- reflexivity.
- reflexivity.
- vm_compute. right. right. right. left. reflexivity.
- reflexivity.
- reflexivity.
- vm_compute. intros [=].
Defined.

(** A unique match is rendered. *)
Example view_unique_match :
  view_session (fun _ => "") "abcd" fs_prefix 0
  = ([], Ok (PyStr.join newline
               ["# Session: abcdef";
                "**File:** `/home/u/.claude/projects/-home-u-foo/abcdef.jsonl`" +:+ newline;
                "---" +:+ newline;
                "## User" +:+ newline; "hello"; ""])).
Proof. vm_compute. reflexivity. Qed.

(** ** Path decoder: the round trip *)

Lemma encode_path_cons c s :
  encode_path (String c s)
  = String (if Ascii.eqb "/" c then "-"%char else c) (encode_path s).
Proof.
unfold encode_path, PyStr.replace. cbn [PyStr.replace_from].
rewrite startswith_char. destruct (Ascii.eqb "/" c); reflexivity.
Qed.

Lemma split_nonempty sep s : PyStr.split sep s <> [].
Proof.
destruct s as [|c s]; cbn [PyStr.split]; [discriminate|].
destruct (Ascii.eqb c sep); [discriminate|].
destruct (PyStr.split sep s); discriminate.
Qed.

Lemma join_cons_char sep c h t :
  PyStr.join sep (String c h :: t) = String c (PyStr.join sep (h :: t)).
Proof. cbn [PyStr.join]. destruct t; [reflexivity|apply append_cons]. Qed.

(** Joining what [split] produced gives the string back. *)
Lemma join_split sep s : PyStr.join (String sep EmptyString) (PyStr.split sep s) = s.
Proof.
induction s as [|c s IH]; [reflexivity|].
cbn [PyStr.split]. destruct (Ascii.eqb_spec c sep) as [->|Hne].
- pose proof (split_nonempty sep s) as Hs.
  cbn [PyStr.join]. destruct (PyStr.split sep s) as [|h t] eqn:E; [contradiction|].
  rewrite IH. reflexivity.
- pose proof (split_nonempty sep s) as Hs.
  destruct (PyStr.split sep s) as [|h t] eqn:E; [contradiction|].
  rewrite join_cons_char, IH. reflexivity.
Qed.

(** A string whose segments hold no [-] holds none. *)
Lemma segments_without_delimiter s :
  Forall (fun seg => PyStr.contains "-" seg = false) (PyStr.split "/" s) ->
  PyStr.contains "-" s = false.
Proof.
induction s as [|c s IH]; [reflexivity|].
cbn [PyStr.split]. destruct (Ascii.eqb_spec c "/") as [->|Hne]; intros H.
- inversion H as [|? ? _ Ht]; subst. cbn [PyStr.contains].
  rewrite (IH Ht). reflexivity.
- pose proof (split_nonempty "/" s) as Hs.
  destruct (PyStr.split "/" s) as [|h t] eqn:E; [contradiction|].
  inversion H as [|? ? Hh Ht]; subst.
  apply contains_cons_false in Hh as [Hc Hh].
  cbn [PyStr.contains]. rewrite IH by (constructor; assumption).
  rewrite orb_false_r. rewrite startswith_char in Hc |- *. exact Hc.
Qed.

(** Where no segment holds a [-], splitting the encoded name at [-] gives
    the segments. *)
Lemma split_encode_path s :
  PyStr.contains "-" s = false ->
  PyStr.split "-" (encode_path s) = PyStr.split "/" s.
Proof.
induction s as [|c s IH]; [reflexivity|].
intros H. apply contains_cons_false in H as [Hc H]. rewrite startswith_char in Hc.
rewrite encode_path_cons. cbn [PyStr.split].
rewrite (Ascii.eqb_sym c "/"). destruct (Ascii.eqb "/" c) eqn:Hslash.
- rewrite Ascii.eqb_refl, (IH H). reflexivity.
- rewrite (Ascii.eqb_sym c "-"), Hc, (IH H). reflexivity.
Qed.

Section DecoderFacts.
Variable path_exists : string -> result bool.

Lemma decode_loop_no_merge parts : forall path_parts,
  no_merged_path path_exists path_parts parts ->
  decode_loop path_exists path_parts parts = ret (path_parts ++ parts).
Proof.
induction parts as [|part rest IH]; intros acc H.
{ cbn [decode_loop]. rewrite app_nil_r. reflexivity. }
assert (Hrest : no_merged_path path_exists (acc ++ [part]) rest).
{ intros pre a b post ->. rewrite <- app_assoc. apply (H (part :: pre) a b post). reflexivity. }
cbn [decode_loop]. destruct rest as [|next rest'].
- reflexivity.
- pose proof (H [] part next rest' eq_refl) as Hnone. cbn [app] in Hnone.
  rewrite Hnone. change (lift (Ok false)) with (ret false).
  rewrite bind_ret_l, (IH _ Hrest), <- app_assoc. reflexivity.
Qed.

(** C3 (amended).  Encoding an absolute path and decoding it gives the path
    back, and nothing is raised, when no segment contains [-], the path
    exists, and for no two neighbouring segments does the path that joins
    them by [_] under the segments before them exist: each such check
    answers, and answers no. *)
Theorem decode_encode_round_trip path :
  PyStr.startswith "/" path = true ->
  Forall (fun seg => PyStr.contains "-" seg = false) (segments path) ->
  path_exists path = Ok true ->
  no_merged_path path_exists [] (segments path) ->
  decode_project_dir_name path_exists (encode_path path) = ret path.
Proof.
intros Habs Hseg _ Hmerge. unfold segments in *.
destruct path as [|c rest]; [discriminate|].
rewrite startswith_char in Habs. apply Ascii.eqb_eq in Habs. subst c.
cbn [PyStr.drop] in *.
unfold decode_project_dir_name. rewrite encode_path_cons.
cbn [Ascii.eqb Bool.eqb PyStr.startswith PyStr.drop negb andb].
rewrite (split_encode_path _ (segments_without_delimiter _ Hseg)).
rewrite (decode_loop_no_merge _ _ Hmerge), bind_ret_l. cbn [app].
rewrite (join_split "/" rest). reflexivity.
Qed.

End DecoderFacts.

(** C3, as stated, fails: [/home/u/my/app] exists and no segment contains
    [-], yet its encoded name decodes to [/home/u/my_app], which exists
    too. *)
Lemma round_trip_lost_to_merge :
  PyStr.startswith "/" "/home/u/my/app" = true
  /\ Forall (fun seg => PyStr.contains "-" seg = false) (segments "/home/u/my/app")
  /\ disk_both "/home/u/my/app" = Ok true
  /\ encode_path "/home/u/my/app" = "-home-u-my-app"
  /\ decode_project_dir_name disk_both (encode_path "/home/u/my/app")
     = ret "/home/u/my_app"
  /\ decode_project_dir_name disk_both (encode_path "/home/u/my/app")
     <> ret "/home/u/my/app".
Proof.
repeat split; try reflexivity.
- vm_compute. repeat constructor.
- vm_compute. intros [=].
Qed.

(** It fails in a second way: the existence check of a merged candidate
    can raise.  Two segments of 200 characters each are legal names, their
    join by [_] is not, and the [OSError] of the check leaves the decoder:
    no path is returned. *)
Lemma round_trip_lost_to_oserror :
  PyStr.startswith "/" long_path = true
  /\ Forall (fun seg => PyStr.contains "-" seg = false) (segments long_path)
  /\ disk_name_max long_path = Ok true
  /\ decode_project_dir_name disk_name_max (encode_path long_path)
     = raise OSError.
Proof.
repeat split; try reflexivity.
vm_compute. repeat constructor.
Qed.

Lemma decode_encode_round_trip_witness :
  decode_project_dir_name disk_one (encode_path "/home/u/my/app")
  = ret "/home/u/my/app".
Proof.
apply (decode_encode_round_trip disk_one "/home/u/my/app").
- reflexivity.
- vm_compute. repeat constructor.
- reflexivity.
- intros pre a b post H.
  change (segments "/home/u/my/app") with ["home"; "u"; "my"; "app"] in H.
  destruct pre as [|p1 [|p2 [|p3 pre]]]; cbn [app] in H;
    simplify_eq; try reflexivity.
  exfalso. destruct pre as [|p4 [|p5 pre]]; simplify_eq.
Defined.

(** ** Date grouper: stability *)

Section SortFacts.
Context {K A : Type} (ltb : K -> K -> bool).

Lemma insert_by_In (x y : K * A) l : In y (insert_by ltb x l) -> y = x \/ In y l.
Proof.
induction l as [|z l IH]; cbn [insert_by].
- intros [<-|[]]. left. reflexivity.
- destruct (ltb (fst z) (fst x)).
  + intros [<-|H]; [right; left; reflexivity|].
    destruct (IH H) as [->|Hl]; [left; reflexivity|right; right; exact Hl].
  + intros [<-|H]; [left; reflexivity|right; exact H].
Qed.

Lemma sort_pairs_In (y : K * A) l : In y (sort_pairs ltb l) -> In y l.
Proof.
induction l as [|x l IH]; cbn [sort_pairs]; [intros []|].
intros H. apply insert_by_In in H as [->|H]; [left; reflexivity|right; apply IH, H].
Qed.

(** A test that no item passes together with a strictly smaller one: the
    items that pass keep their order. *)
Variable P : K * A -> bool.
Hypothesis P_tie : forall x y, P x = true -> ltb (fst y) (fst x) = true -> P y = false.

Lemma filter_insert_by x l :
  List.filter P (insert_by ltb x l) = if P x then x :: List.filter P l else List.filter P l.
Proof.
induction l as [|y l IH]; cbn [insert_by List.filter]; [reflexivity|].
destruct (ltb (fst y) (fst x)) eqn:Hlt; cbn [List.filter].
- rewrite IH. destruct (P x) eqn:Hx; [|reflexivity].
  rewrite (P_tie _ _ Hx Hlt). reflexivity.
- reflexivity.
Qed.

Lemma filter_sort_pairs l : List.filter P (sort_pairs ltb l) = List.filter P l.
Proof.
induction l as [|x l IH]; [reflexivity|].
cbn [sort_pairs List.filter]. rewrite filter_insert_by, IH. reflexivity.
Qed.

End SortFacts.

Lemma lex_ltb_irrefl l : Datetime.lex_ltb l l = false.
Proof.
induction l as [|x l IH]; [reflexivity|].
cbn [Datetime.lex_ltb]. rewrite Z.ltb_irrefl, Z.eqb_refl, IH. reflexivity.
Qed.

Lemma datetime_ltb_irrefl t : Datetime.ltb t t = false.
Proof. apply lex_ltb_irrefl. Qed.

Lemma filter_keyed t l :
  Forall keyed l ->
  List.filter (has_sort_key t) (map snd l)
  = map snd (List.filter (fun p => bool_decide (fst p = t)) l).
Proof.
induction 1 as [|p l [w Hp] _ IH]; [reflexivity|].
cbn [map List.filter]. unfold has_sort_key at 1. rewrite Hp, IH.
destruct (bool_decide (fst p = t)); reflexivity.
Qed.

Lemma keyed_combine bucket keys :
  Forall2 (fun s t => exists w, sort_key_of s = (w, Ok t)) bucket keys ->
  Forall keyed (combine keys bucket) /\ map snd (combine keys bucket) = bucket.
Proof.
induction 1 as [|s t bucket keys Hst _ [IH1 IH2]]; [split; [constructor|reflexivity]|].
cbn [combine map snd]. split; [constructor; assumption|]. rewrite IH2. reflexivity.
Qed.

(** Within a bucket the sessions of one timestamp keep their order. *)
Lemma sort_bucket_stable bucket w sorted t :
  sort_bucket bucket = (w, Ok sorted) ->
  List.filter (has_sort_key t) sorted = List.filter (has_sort_key t) bucket.
Proof.
unfold sort_bucket. intros H. bind_inv H. injection H as _ <-.
apply mapM_ok, keyed_combine in E as [Hk Hb].
rewrite filter_keyed.
- rewrite filter_sort_pairs; [rewrite <- filter_keyed, Hb by exact Hk; reflexivity|].
  intros x y Hx Hlt. apply bool_decide_eq_true in Hx.
  apply bool_decide_eq_false. intros Hy. rewrite Hx, Hy, datetime_ltb_irrefl in Hlt.
  discriminate.
- apply List.Forall_forall. intros p Hp. apply sort_pairs_In in Hp.
  revert p Hp. apply List.Forall_forall, Hk.
Qed.

Lemma bucket_append_keys by_date k s d :
  In d (map fst (bucket_append by_date k s)) <-> d = k \/ In d (map fst by_date).
Proof.
induction by_date as [|[k' b'] rest IH]; cbn [bucket_append map fst In].
- intuition.
- destruct (String.eqb_spec k' k) as [->|Hne]; cbn [map fst In]; [intuition|].
  rewrite IH. intuition.
Qed.

Lemma bucket_append_NoDup by_date k s :
  List.NoDup (map fst by_date) -> List.NoDup (map fst (bucket_append by_date k s)).
Proof.
induction by_date as [|[k' b'] rest IH]; cbn [bucket_append map fst]; intros H.
- repeat constructor. intros [].
- inversion H as [|? ? Hk' Hrest]; subst.
  destruct (String.eqb_spec k' k) as [->|Hne]; cbn [map fst]; [exact H|].
  constructor; [|exact (IH Hrest)].
  rewrite bucket_append_keys. intros [->|Hin]; [apply Hne; reflexivity|exact (Hk' Hin)].
Qed.

Lemma bucket_append_In by_date k s d b :
  List.NoDup (map fst by_date) ->
  In (d, b) (bucket_append by_date k s) ->
  (d = k /\ exists b0, b = b0 ++ [s]
                       /\ (In (k, b0) by_date \/ (b0 = [] /\ ~ In k (map fst by_date))))
  \/ (d <> k /\ In (d, b) by_date).
Proof.
induction by_date as [|[k' b'] rest IH]; cbn [bucket_append map fst]; intros Hnd Hin.
- destruct Hin as [[= <- <-]|[]]. left. split; [reflexivity|].
  exists []. split; [reflexivity|]. right. split; [reflexivity|]. intros [].
- inversion Hnd as [|? ? Hk' Hrest]; subst.
  destruct (String.eqb_spec k' k) as [->|Hne].
  + destruct Hin as [[= <- <-]|Hin].
    * left. split; [reflexivity|]. exists b'. split; [reflexivity|]. left. left. reflexivity.
    * right. split; [|right; exact Hin].
      intros ->. apply Hk'. apply (in_map fst) in Hin. exact Hin.
  + destruct Hin as [[= <- <-]|Hin].
    * right. split; [exact Hne|left; reflexivity].
    * destruct (IH Hrest Hin) as [(-> & b0 & -> & Hb0)|[Hd Hdb]].
      -- left. split; [reflexivity|]. exists b0. split; [reflexivity|].
         destruct Hb0 as [Hb0|[-> Hk]]; [left; right; exact Hb0|].
         right. split; [reflexivity|]. cbn [In]. intros [?|?]; [contradiction|auto].
      -- right. split; [exact Hd|right; exact Hdb].
Qed.

Lemma filter_snoc {A} (p : A -> bool) l x :
  List.filter p (l ++ [x]) = List.filter p l ++ (if p x then [x] else []).
Proof. rewrite List.filter_app. reflexivity. Qed.

Lemma grouped_append src by_date s w k :
  grouped src by_date -> date_key_of s = (w, Ok k) ->
  grouped (src ++ [s]) (bucket_append by_date k s).
Proof.
intros (Hnd & Hin & Hout) Hk.
assert (Hs : forall d, in_bucket d s = String.eqb k d).
{ intros d. unfold in_bucket. rewrite Hk. reflexivity. }
split; [apply bucket_append_NoDup, Hnd|]. split.
- intros d b Hdb. rewrite filter_snoc, Hs.
  destruct (bucket_append_In _ _ _ _ _ Hnd Hdb) as [(-> & b0 & -> & Hb0)|[Hd Hdb']].
  + rewrite String.eqb_refl. f_equal.
    destruct Hb0 as [Hb0|[-> Hnk]]; [apply Hin, Hb0|symmetry; apply Hout, Hnk].
  + destruct (String.eqb_spec k d) as [->|_]; [contradiction|].
    rewrite app_nil_r. apply Hin, Hdb'.
- intros d Hd. rewrite bucket_append_keys in Hd.
  rewrite filter_snoc, Hs. destruct (String.eqb_spec k d) as [->|_]; [tauto|].
  rewrite app_nil_r. apply Hout. tauto.
Qed.

Lemma group_loop_grouped rest : forall by_date src w res,
  grouped src by_date -> group_loop by_date rest = (w, Ok res) ->
  grouped (src ++ rest) res.
Proof.
induction rest as [|s rest IH]; intros bd src w res Hg H.
- injection H as _ <-. rewrite app_nil_r. exact Hg.
- cbn [group_loop] in H. bind_inv H.
  change (s :: rest) with ([s] ++ rest). rewrite app_assoc.
  eapply IH; [|exact H]. eapply grouped_append; eassumption.
Qed.

(** C7.  Date grouping is stable: in every bucket the grouper returns, the
    sessions whose normalized [created] timestamps are equal (absent ones
    count as the minimum timestamp) stand in the order they have in the
    input list. *)
Theorem group_sessions_by_date_stable sessions w buckets date_key bucket t :
  group_sessions_by_date sessions = (w, Ok buckets) ->
  In (date_key, bucket) buckets ->
  List.filter (has_sort_key t) bucket
  = List.filter (has_sort_key t) (List.filter (in_bucket date_key) sessions).
Proof.
unfold group_sessions_by_date. intros H Hin.
bind_inv H. bind_inv H. injection H as _ <-.
apply sort_pairs_In in Hin.
apply mapM_ok in E0.
destruct (Forall2_In_r _ _ _ _ E0 Hin) as ([d b] & Hdb & w' & Hsort).
cbn [fst snd] in Hsort. bind_inv Hsort. injection Hsort as _ <- <-.
rewrite (sort_bucket_stable _ _ _ t E1). f_equal.
assert (Hg : grouped [] []).
{ split; [constructor|]. split; [intros ? ? []|reflexivity]. }
destruct (group_loop_grouped _ _ _ _ _ Hg E) as (_ & Hb & _).
apply Hb, Hdb.
Qed.

Lemma group_sessions_by_date_stable_witness :
  List.filter (has_sort_key (mkDatetime 2024 1 1 10 0 0 0 None)) [session_C; session_A; session_B]
  = List.filter (has_sort_key (mkDatetime 2024 1 1 10 0 0 0 None))
      (List.filter (in_bucket "2024-01-01")
                   [session_V; session_A; session_B; session_C; session_U]).
Proof.
apply (group_sessions_by_date_stable
         [session_V; session_A; session_B; session_C; session_U] []
         [("2024-01-01", [session_C; session_A; session_B]);
          ("Unknown", [session_V; session_U])]).
- vm_compute. reflexivity.
- left. reflexivity.
Defined.

(** Two sessions created at the same instant are listed in input order,
    whichever comes first. *)
Example same_instant_keeps_input_order :
  group_sessions_by_date [session_A; session_B; session_C]
  = ([], Ok [("2024-01-01", [session_C; session_A; session_B])])
  /\ group_sessions_by_date [session_B; session_A; session_C]
     = ([], Ok [("2024-01-01", [session_C; session_B; session_A])]).
Proof. split; vm_compute; reflexivity. Qed.

(** A timestamp that leaves the range of [datetime] on its way to UTC
    stops the grouping. *)
Example grouping_overflow :
  group_sessions_by_date [dated "early" (PDatetime (mkDatetime 1 1 1 0 0 0 0 (Some 18000000000)))]
  = ([], Raise OverflowError).
Proof. vm_compute. reflexivity. Qed.

(** ** Computations that print nothing *)

Lemma silent_ret {A} (a : A) : silent (ret a).
Proof. intros w r [= <- _]. reflexivity. Qed.

Lemma silent_raise {A} e : silent (@raise A e).
Proof. intros w r [= <- _]. reflexivity. Qed.

Lemma silent_lift {A} (x : result A) : silent (lift x).
Proof. intros w r [= <- _]. reflexivity. Qed.

Lemma silent_bind {A B} (m : M A) (k : A -> M B) :
  silent m -> (forall a, silent (k a)) -> silent (bind m k).
Proof.
intros Hm Hk w r. destruct m as [w1 [a|e]]; simpl.
- destruct (k a) as [w2 r2] eqn:E. intros [= <- _].
  rewrite (Hm _ _ eq_refl), (Hk _ _ _ E). reflexivity.
- intros [= <- _]. apply (Hm _ _ eq_refl).
Qed.

Lemma silent_try {A} (m : M A) handled (h : exn -> M A) :
  silent m -> (forall e, silent (h e)) -> silent (try_except m handled h).
Proof.
intros Hm Hh w r. destruct m as [w1 [a|e]]; simpl.
- intros [= <- _]. apply (Hm _ _ eq_refl).
- destruct (handled e).
  + destruct (h e) as [w2 r2] eqn:E. intros [= <- _].
    rewrite (Hm _ _ eq_refl), (Hh _ _ _ E). reflexivity.
  + intros [= <- _]. apply (Hm _ _ eq_refl).
Qed.

Lemma silent_mapM {A B} (f : A -> M B) l : (forall x, silent (f x)) -> silent (mapM f l).
Proof.
intros Hf. induction l as [|x l IH]; simpl; [apply silent_ret|].
apply silent_bind; [apply Hf|]. intros y.
apply silent_bind; [exact IH|]. intros ys. apply silent_ret.
Qed.

Lemma silent_py_get v k d : silent (py_get v k d).
Proof. destruct v; simpl; solve [apply silent_ret | apply silent_raise]. Qed.





(** ** Slices *)

Lemma take_length n s : (String.length (PyStr.take n s) <= n)%nat.
Proof.
unfold PyStr.take. revert s. induction n as [|n IH]; intros s.
- destruct s; simpl; lia.
- destruct s as [|c s]; simpl; [lia|]. specialize (IH s). lia.
Qed.


(** ** Index parser: the sessions of a loaded index *)

Section ParserEntries.
Variable fromisoformat : string -> option datetime.



End ParserEntries.






Example project_path_falls_back :
  map (field "project_path")
      (returned (parse_session_index iso0 (index_path_of fs_fallback "-home-u-foo")
                   (Ok (PDict items_fallback))))
  = [Some (PStr "/home/u/foo"); Some (PStr "/srv/x")].
Proof. vm_compute. reflexivity. Qed.

(** ** Index parser and collector: inputs they go through *)

Lemma mapM_ret {A B} (f : A -> M B) l :
  Forall (fun x => exists y, f x = ret y) l ->
  exists ys, mapM f l = ret ys /\ length ys = length l.
Proof.
induction 1 as [|x l [y Hy] _ (ys & IH & Hlen)]; [exists []; split; reflexivity|].
exists (y :: ys). cbn [mapM]. rewrite Hy, bind_ret_l, IH, bind_ret_l.
split; [reflexivity|]. simpl. rewrite Hlen. reflexivity.
Qed.









Example collect_fallback :
  fst (collect_all_sessions iso0 fs_fallback)
  = [WarnCouldNotParse "/home/u/.claude/projects/-home-u-missing/sessions-index.json"
       FileNotFoundError]
  /\ map (field "session_id") (returned (collect_all_sessions iso0 fs_fallback))
     = [Some (PStr "s1"); Some (PStr "s2"); Some (PStr "s3")].
Proof. split; vm_compute; reflexivity. Qed.

(** ** Collector: an index file that cannot be loaded *)

Lemma snd_bind_ext {A B} (m : M A) (k k' : A -> M B) :
  (forall a, snd (k a) = snd (k' a)) -> snd (bind m k) = snd (bind m k').
Proof.
intros H. destruct m as [w [a|e]]; simpl; [|reflexivity].
specialize (H a). destruct (k a), (k' a). exact H.
Qed.

Lemma snd_bind_cong {A B} (m m' : M A) (k : A -> M B) :
  snd m = snd m' -> snd (bind m k) = snd (bind m' k).
Proof.
destruct m as [w r], m' as [w' r']. simpl. intros ->.
destruct r' as [a|e]; simpl; [destruct (k a)|]; reflexivity.
Qed.

Lemma collect_indexed_unloadable iso fs proj e rest all_sessions ids :
  caught_by_parser e = true ->
  snd (collect_indexed iso fs ((proj, Raise e) :: rest) all_sessions ids)
  = snd (collect_indexed iso fs rest all_sessions ids).
Proof.
intros He. cbn [collect_indexed].
rewrite (parse_session_index_unloadable iso _ e He). cbn [bind add_session_ids].
rewrite bind_ret_l, app_nil_r.
destruct (collect_indexed iso fs rest all_sessions ids). reflexivity.
Qed.

Lemma collect_indexed_skip iso fs proj e post pre : forall all_sessions ids,
  caught_by_parser e = true ->
  snd (collect_indexed iso fs (pre ++ (proj, Raise e) :: post) all_sessions ids)
  = snd (collect_indexed iso fs (pre ++ post) all_sessions ids).
Proof.
induction pre as [|[proj' loaded] pre IH]; intros all ids He.
- apply collect_indexed_unloadable, He.
- cbn [app collect_indexed]. apply snd_bind_ext. intros sessions.
  apply snd_bind_ext. intros ids'. apply IH, He.
Qed.

Lemma collect_indexed_same_dir iso fs fs' indexes : forall all_sessions ids,
  projects_dir fs' = projects_dir fs ->
  collect_indexed iso fs' indexes all_sessions ids
  = collect_indexed iso fs indexes all_sessions ids.
Proof.
induction indexes as [|[proj loaded] indexes IH]; intros all ids Hd; [reflexivity|].
cbn [collect_indexed]. unfold index_path_of. rewrite Hd.
apply bind_ext. intros sessions. apply bind_ext. intros ids'. apply IH, Hd.
Qed.

Lemma orphans_loop_same_dir fs fs' ids files :
  projects_dir fs' = projects_dir fs ->
  orphans_loop fs' ids files = orphans_loop fs ids files.
Proof.
intros Hd. induction files as [|f files IH]; [reflexivity|].
cbn [orphans_loop]. unfold orphan_of, path_of. rewrite Hd, IH. reflexivity.
Qed.

(** An index file that is missing or is not JSON adds nothing to the
    collected list: the collector returns, or raises, what it does on the
    tree without that file. *)
Theorem unloadable_index_adds_nothing iso fs pre proj e post :
  caught_by_parser e = true ->
  index_files fs = pre ++ (proj, Raise e) :: post ->
  snd (collect_all_sessions iso fs)
  = snd (collect_all_sessions iso (mkFs (projects_dir fs) (pre ++ post) (dir_entries fs))).
Proof.
intros He Hix. unfold collect_all_sessions. rewrite Hix. cbn [index_files].
rewrite (collect_indexed_same_dir iso fs (mkFs _ _ _)) by reflexivity.
etransitivity; [apply snd_bind_cong, (collect_indexed_skip iso fs proj e post pre [] ∅ He)|].
apply snd_bind_ext. intros indexed. unfold find_orphan_sessions.
rewrite (orphans_loop_same_dir fs (mkFs _ _ _)) by reflexivity.
reflexivity.
Qed.

Lemma unloadable_index_adds_nothing_witness :
  snd (collect_all_sessions iso0 fs_fallback)
  = snd (collect_all_sessions iso0
           (mkFs (projects_dir fs_fallback) ([] ++ [("-home-u-foo", Ok (PDict items_fallback))])
                 (dir_entries fs_fallback))).
Proof.
apply (unloadable_index_adds_nothing iso0 fs_fallback [] "-home-u-missing" FileNotFoundError
         [("-home-u-foo", Ok (PDict items_fallback))]); reflexivity.
Defined.

(** ** Orphan finder: the first prompt *)

Lemma first_prompt_passed_over line rest :
  passed_over line = true -> first_prompt_of (line :: rest) = first_prompt_of rest.
Proof.
intros H. cbn [first_prompt_of].
match goal with |- bind ?t _ = _ => assert (Ht : t = ret None) end.
{ destruct line as [data|e]; cbn [passed_over] in H.
  - destruct data as [| | | | |d|]; try discriminate H.
    change (lift (Ok (PDict d))) with (ret (PDict d)). rewrite bind_ret_l.
    cbn [has_message]. rewrite bind_ret_l.
    destruct (assoc d "message") as [[| | | | |m|]|] eqn:Em; try discriminate H;
      [|reflexivity].
    cbn [message_of]. rewrite Em, bind_ret_l. cbn [py_get]. rewrite bind_ret_l.
    destruct (default (PStr "") (assoc m "content")); try discriminate H; reflexivity.
  - cbn. rewrite H. reflexivity. }
rewrite Ht, bind_ret_l. reflexivity.
Qed.

Lemma first_prompt_found d m s rest :
  assoc d "message" = Some (PDict m) -> assoc m "content" = Some (PStr s) ->
  first_prompt_of (Ok (PDict d) :: rest) = ret (PyStr.take 100 s).
Proof.
intros Hm Hc. cbn [first_prompt_of].
change (lift (Ok (PDict d))) with (ret (PDict d)). rewrite bind_ret_l.
cbn [has_message message_of]. rewrite Hm, !bind_ret_l.
cbn [py_get]. rewrite Hc, bind_ret_l. reflexivity.
Qed.

(** The first prompt of a log file is the [content] of the first line that
    is a [dict] whose [message] has a string [content], cut at 100
    characters; lines that are not JSON, or have no [message], or a
    [content] that is no string, are passed over, and the prompt is empty
    when every line is. *)
Theorem first_prompt_is_first_string_content pre :
  forallb passed_over pre = true ->
  first_prompt_of pre = ([], Ok "")
  /\ forall d m s post,
      assoc d "message" = Some (PDict m) -> assoc m "content" = Some (PStr s) ->
      first_prompt_of (pre ++ Ok (PDict d) :: post) = ([], Ok (PyStr.take 100 s)).
Proof.
induction pre as [|line pre IH]; intros H.
- split; [reflexivity|]. intros d m s post Hm Hc. apply (first_prompt_found _ _ _ _ Hm Hc).
- cbn [forallb] in H. apply andb_true_iff in H as [Hl Hpre].
  destruct (IH Hpre) as [IH1 IH2]. split.
  + rewrite (first_prompt_passed_over _ _ Hl). exact IH1.
  + intros d m s post Hm Hc. cbn [app].
    rewrite (first_prompt_passed_over _ _ Hl). apply (IH2 _ _ _ _ Hm Hc).
Qed.

Lemma first_prompt_is_first_string_content_witness :
  first_prompt_of lines_noise = ([], Ok "")
  /\ forall d m s post,
      assoc d "message" = Some (PDict m) -> assoc m "content" = Some (PStr s) ->
      first_prompt_of (lines_noise ++ Ok (PDict d) :: post) = ([], Ok (PyStr.take 100 s)).
Proof. apply (first_prompt_is_first_string_content lines_noise). reflexivity. Defined.

(** ** Orphan finder: every file is accounted for *)

Lemma silent_has_message data : silent (has_message data).
Proof. destruct data; simpl; solve [apply silent_ret | apply silent_raise]. Qed.

Lemma silent_message_of data : silent (message_of data).
Proof.
destruct data; simpl; try solve [apply silent_ret | apply silent_raise].
destruct (assoc d "message"); [apply silent_ret | apply silent_raise].
Qed.

Lemma silent_first_prompt_of lines : silent (first_prompt_of lines).
Proof.
induction lines as [|line lines IH]; cbn [first_prompt_of]; [apply silent_ret|].
apply silent_bind.
- apply silent_try; [|intros; apply silent_ret].
  apply silent_bind; [apply silent_lift|]. intros data.
  apply silent_bind; [apply silent_has_message|]. intros [|]; [|apply silent_ret].
  apply silent_bind; [apply silent_message_of|]. intros message.
  apply silent_bind; [apply silent_py_get|]. intros c. destruct c; apply silent_ret.
- intros [fp|]; [apply silent_ret|exact IH].
Qed.

Lemma first_prompt_of_bounded lines : forall w p,
  first_prompt_of lines = (w, Ok p) -> (String.length p <= 100)%nat.
Proof.
induction lines as [|line lines IH]; intros w p H.
- injection H as _ <-. simpl. lia.
- cbn [first_prompt_of] in H. bind_inv H. destruct a as [fp|]; [|apply (IH _ _ H)].
  injection H as _ <-. unfold try_except in E.
  match type of E with
    match ?b with _ => _ end = _ => destruct b as [wb [x|e]] eqn:Eb
  end.
  + injection E as _ ->. bind_inv Eb. bind_inv Eb.
    match type of Eb with (if ?present then _ else _) = _ => destruct present end;
      [|discriminate Eb].
    bind_inv Eb. bind_inv Eb.
    match type of Eb with match ?c with _ => _ end = _ => destruct c end;
      try discriminate Eb.
    injection Eb as _ <-. apply take_length.
  + destruct (is_JSONDecodeError e); discriminate E.
Qed.

Lemma orphan_of_outcome fs f :
  (exists o, orphan_of fs f = ([], Ok [o]) /\ orphan_fields fs f o)
  \/ (exists e, orphan_of fs f
                = ([WarnCouldNotProcessOrphan (Pathlib.str (path_of fs f)) e], Ok [])).
Proof.
unfold orphan_of.
destruct (mtime f) as [t|e] eqn:Et; [|right; exists e; reflexivity].
destruct (content f) as [lines|e] eqn:Ec; [|right; exists e; reflexivity].
destruct (first_prompt_of lines) as [w [p|e]] eqn:Ep;
  pose proof (silent_first_prompt_of lines _ _ Ep) as ->.
- left. eexists. split.
  + change (lift (Ok t)) with (ret t). change (lift (Ok lines)) with (ret lines).
    rewrite !bind_ret_l, Ep. reflexivity.
  + exists t, lines, p. split; [exact Et|]. split; [exact Ec|]. split; [exact Ep|].
    split; [apply (first_prompt_of_bounded _ _ _ Ep)|]. repeat split.
- right. exists e.
  change (lift (Ok t)) with (ret t). change (lift (Ok lines)) with (ret lines).
  rewrite !bind_ret_l, Ep. reflexivity.
Qed.

Lemma orphans_loop_accounts fs ids files :
  exists w orphans,
    orphans_loop fs ids files = (w, Ok orphans)
    /\ (length w + length orphans = length (List.filter (eligible fs ids) files))%nat
    /\ Forall orphan_warning w
    /\ Forall (fun o => exists f, In f files /\ eligible fs ids f = true /\ orphan_fields fs f o)
              orphans.
Proof.
induction files as [|f files (w & orphans & IH & Hlen & Hw & Ho)].
- exists [], []. repeat split; constructor.
- assert (Ho' : Forall (fun o => exists f0, In f0 (f :: files) /\ eligible fs ids f0 = true
                                            /\ orphan_fields fs f0 o) orphans).
  { eapply Forall_impl; [exact Ho|]. intros o (f0 & Hf0 & He & Hfields).
    exists f0. split; [right; exact Hf0|]. split; assumption. }
  cbn [orphans_loop List.filter]. destruct (eligible fs ids f) eqn:Hel; unfold eligible in Hel.
  + apply andb_true_iff in Hel as [Hs Hi]. apply negb_true_iff in Hs, Hi.
    rewrite Hs, Hi, IH.
    destruct (orphan_of_outcome fs f) as [(o & -> & Hf)|(e & ->)]; cbn.
    * eexists _, (o :: orphans). split; [reflexivity|]. rewrite app_nil_r.
      split; [simpl in *; lia|].
      split; [exact Hw|]. constructor; [|exact Ho'].
      exists f. split; [left; reflexivity|]. split; [|exact Hf].
      unfold eligible. rewrite Hs, Hi. reflexivity.
    * eexists _, orphans. split; [reflexivity|]. rewrite app_nil_r.
      split; [simpl in *; lia|].
      split; [|exact Ho']. constructor; [eexists _, _; reflexivity|exact Hw].
  + apply andb_false_iff in Hel as [Hs|Hi].
    * apply negb_false_iff in Hs. rewrite Hs. eauto 6.
    * apply negb_false_iff in Hi.
      destruct (skipped (path_of fs f)); [eauto 6|]. rewrite Hi. eauto 6.
Qed.

(** The scan of the log files never raises, and accounts for every file
    that is neither skipped nor indexed: each gives one orphan or one
    warning, and nothing else is printed. *)
Theorem orphan_scan_accounts_for_every_file :
  forall fs ids,
  exists w orphans,
    find_orphan_sessions fs ids = (w, Ok orphans)
    /\ (length w + length orphans
        = length (List.filter (eligible fs ids) (glob_jsonl fs)))%nat
    /\ Forall orphan_warning w.
Proof.
intros fs ids.
destruct (orphans_loop_accounts fs ids (glob_jsonl fs)) as (w & orphans & H & Hlen & Hw & _).
exists w, orphans. auto.
Qed.

(** An orphan carries the modification time of its log file as [created],
    a message count of 0, a first prompt of at most 100 characters read
    from the file, and a summary made of the first 50 of them. *)
Theorem orphan_metadata fs ids o :
  In o (returned (find_orphan_sessions fs ids)) ->
  exists f, In f (glob_jsonl fs) /\ eligible fs ids f = true /\ orphan_fields fs f o.
Proof.
unfold find_orphan_sessions.
destruct (orphans_loop_accounts fs ids (glob_jsonl fs)) as (w & orphans & -> & _ & _ & Ho).
cbn [returned]. intros Hin. revert o Hin. apply List.Forall_forall, Ho.
Qed.

Lemma orphan_metadata_witness :
  exists f, In f (glob_jsonl fs_scenario)
            /\ eligible fs_scenario (indexed_ids iso0 fs_scenario) f = true
            /\ orphan_fields fs_scenario f session_xyz.
Proof.
apply (orphan_metadata fs_scenario (indexed_ids iso0 fs_scenario) session_xyz).
vm_compute. left. reflexivity.
Defined.

(** A log file that cannot be read gives a warning and no orphan. *)
Example unreadable_log_is_reported :
  find_orphan_sessions
    (mkFs (mkPath "/" ["p"]) []
          [mkLog "a" "x.jsonl" (Ok feb2) (Raise PermissionError); log "a" "y.jsonl"]) ∅
  = ([WarnCouldNotProcessOrphan "/p/a/x.jsonl" PermissionError],
     Ok [list_to_map
           [("session_id", PStr "y"); ("summary", PStr "Unindexed session: hello...");
            ("first_prompt", PStr "hello"); ("message_count", PInt 0);
            ("created", PDatetime feb2); ("project_path", PStr "a");
            ("full_path", PStr "/p/a/y.jsonl")]]).
Proof. vm_compute. reflexivity. Qed.

(** ** Timestamps: normalization *)

Lemma of_wall_naive us : tzinfo (Datetime.of_wall us) = None.
Proof.
unfold Datetime.of_wall. destruct (Datetime.ord2ymd _) as [[y m] d]. reflexivity.
Qed.

(** Normalizing prints nothing and gives an absent value for an absent one
    and a naive timestamp for a timestamp; normalizing again changes
    nothing. *)
Theorem normalize_datetime_idempotent dt w v :
  normalize_datetime dt = (w, Ok v) ->
  w = []
  /\ normalize_datetime v = ([], Ok v)
  /\ match v with
     | PNone => dt = PNone
     | PDatetime t => tzinfo t = None /\ exists t0, dt = PDatetime t0
     | _ => False
     end.
Proof.
destruct dt as [| | | | | |t]; try discriminate.
- intros [= <- <-]. repeat split.
- cbn [normalize_datetime]. destruct (tzinfo t) as [off|] eqn:Etz.
  + unfold Datetime.to_naive_utc. destruct (_ || _).
    * discriminate.
    * intros [= <- <-]. split; [reflexivity|].
      cbn [normalize_datetime]. rewrite of_wall_naive. eauto.
  + intros [= <- <-]. split; [reflexivity|].
    cbn [normalize_datetime]. rewrite Etz. eauto.
Qed.

Lemma normalize_datetime_idempotent_witness :
  [] = ([] : list event)
  /\ normalize_datetime (PDatetime (mkDatetime 2024 1 1 10 0 0 0 None))
     = ([], Ok (PDatetime (mkDatetime 2024 1 1 10 0 0 0 None)))
  /\ (tzinfo (mkDatetime 2024 1 1 10 0 0 0 None) = None
      /\ exists t0, PDatetime ten_utc_as_eleven = PDatetime t0).
Proof.
apply (normalize_datetime_idempotent (PDatetime ten_utc_as_eleven) []
         (PDatetime (mkDatetime 2024 1 1 10 0 0 0 None))).
reflexivity.
Defined.

(** ** Sorting: permutation and order *)

Section SortOrder.
Context {K A : Type} (ltb : K -> K -> bool).

Lemma insert_by_Permutation (x : K * A) l : Permutation (insert_by ltb x l) (x :: l).
Proof.
induction l as [|y l IH]; cbn [insert_by]; [reflexivity|].
destruct (ltb (fst y) (fst x)); [|reflexivity].
rewrite IH. apply perm_swap.
Qed.

Lemma sort_pairs_Permutation (l : list (K * A)) : Permutation (sort_pairs ltb l) l.
Proof.
induction l as [|x l IH]; cbn [sort_pairs]; [reflexivity|].
rewrite insert_by_Permutation, IH. reflexivity.
Qed.

Hypothesis ltb_asym : forall a b, ltb a b = true -> ltb b a = false.
Hypothesis ltb_negtrans : forall a b c, ltb b a = false -> ltb c b = false -> ltb c a = false.

(** No item is strictly below an item before it. *)
Definition ascending (l : list (K * A)) : Prop :=
  StronglySorted (fun x y => ltb (fst y) (fst x) = false) l.

Lemma insert_by_ascending x l : ascending l -> ascending (insert_by ltb x l).
Proof.
induction 1 as [|y l Hl IH Hy]; cbn [insert_by]; [repeat constructor|].
destruct (ltb (fst y) (fst x)) eqn:Hlt.
- constructor; [exact IH|]. apply List.Forall_forall. intros z Hz.
  apply insert_by_In in Hz as [->|Hz]; [apply ltb_asym, Hlt|].
  revert z Hz. apply List.Forall_forall, Hy.
- constructor; [constructor; assumption|]. constructor; [exact Hlt|].
  eapply Forall_impl; [exact Hy|]. intros z Hz. cbv beta in *.
  apply (ltb_negtrans _ _ _ Hlt Hz).
Qed.

Lemma sort_pairs_ascending l : ascending (sort_pairs ltb l).
Proof.
induction l as [|x l IH]; cbn [sort_pairs]; [constructor|].
apply insert_by_ascending, IH.
Qed.

End SortOrder.

Lemma StronglySorted_map_fst {K A} (R : K -> K -> Prop) (l : list (K * A)) :
  StronglySorted (fun x y => R (fst x) (fst y)) l -> StronglySorted R (map fst l).
Proof.
induction 1 as [|x l _ IH Hx]; cbn [map]; constructor; [exact IH|].
apply Forall_map. exact Hx.
Qed.

(** The order of naive timestamps. *)
Lemma lex_ltb_asym a : forall b, Datetime.lex_ltb a b = true -> Datetime.lex_ltb b a = false.
Proof.
induction a as [|x a IH]; intros [|y b]; cbn [Datetime.lex_ltb]; try reflexivity;
  try discriminate.
intros H. apply orb_true_iff in H as [H|H].
- apply Z.ltb_lt in H.
  rewrite (proj2 (Z.ltb_ge y x)) by lia. rewrite (proj2 (Z.eqb_neq y x)) by lia. reflexivity.
- apply andb_true_iff in H as [Hxy H]. apply Z.eqb_eq in Hxy. subst y.
  rewrite Z.ltb_irrefl, Z.eqb_refl, (IH _ H). reflexivity.
Qed.

Lemma lex_ltb_negtrans a : forall b c,
  Datetime.lex_ltb b a = false -> Datetime.lex_ltb c b = false -> Datetime.lex_ltb c a = false.
Proof.
induction a as [|x a IH]; intros [|y b] [|z c]; cbn [Datetime.lex_ltb]; try reflexivity;
  try discriminate.
intros Hba Hcb.
apply orb_false_iff in Hba as [Hyx Hba]. apply orb_false_iff in Hcb as [Hzy Hcb].
apply Z.ltb_ge in Hyx, Hzy.
rewrite (proj2 (Z.ltb_ge z x)) by lia. cbn [orb].
destruct (Z.eqb_spec z x) as [Hzx|Hzx]; [|reflexivity].
assert (y = x) by lia. subst y z.
rewrite Z.eqb_refl in Hba, Hcb. cbn [andb] in *. apply (IH _ _ Hba Hcb).
Qed.

(** The order of strings. *)
Lemma ascii_compare_refl c : Ascii.compare c c = Eq.
Proof. unfold Ascii.compare. apply N.compare_refl. Qed.

Lemma ascii_compare_lt_trans a b c :
  Ascii.compare a b = Lt -> Ascii.compare b c = Lt -> Ascii.compare a c = Lt.
Proof.
unfold Ascii.compare. rewrite !N.compare_lt_iff. apply N.lt_trans.
Qed.

Lemma string_compare_lt_trans a : forall b c,
  String.compare a b = Lt -> String.compare b c = Lt -> String.compare a c = Lt.
Proof.
induction a as [|x a IH]; intros [|y b] [|z c]; cbn [String.compare]; try reflexivity;
  try discriminate.
destruct (Ascii.compare x y) eqn:Hxy; try discriminate;
  destruct (Ascii.compare y z) eqn:Hyz; try discriminate; intros H1 H2.
- apply Ascii.compare_eq_iff in Hxy, Hyz. subst. rewrite ascii_compare_refl. eauto.
- apply Ascii.compare_eq_iff in Hxy. subst. rewrite Hyz. reflexivity.
- apply Ascii.compare_eq_iff in Hyz. subst. rewrite Hxy. reflexivity.
- rewrite (ascii_compare_lt_trans _ _ _ Hxy Hyz). reflexivity.
Qed.

Lemma string_ltb_asym a b : String.ltb a b = true -> String.ltb b a = false.
Proof.
unfold String.ltb. rewrite (String.compare_antisym a b).
destruct (String.compare b a); simpl; congruence.
Qed.

Lemma string_ltb_total a b : String.ltb b a = false -> a <> b -> String.ltb a b = true.
Proof.
unfold String.ltb. rewrite (String.compare_antisym a b).
destruct (String.compare b a) eqn:E; simpl; try congruence.
apply String.compare_eq_iff in E. congruence.
Qed.

Lemma string_ltb_negtrans a b c :
  String.ltb b a = false -> String.ltb c b = false -> String.ltb c a = false.
Proof.
intros Hba Hcb. destruct (String.ltb c a) eqn:Hca; [|reflexivity].
destruct (String.eqb_spec a b) as [->|Hab]; [congruence|].
pose proof (string_ltb_total _ _ Hba Hab) as Hlt.
unfold String.ltb in *.
destruct (String.compare c a) eqn:E1; try discriminate.
destruct (String.compare a b) eqn:E2; try discriminate.
rewrite (string_compare_lt_trans _ _ _ E1 E2) in Hcb. discriminate.
Qed.

(** ** Date grouper: what the buckets hold *)

Lemma Permutation_concat_map {A B} (l l' : list (A * list B)) :
  Permutation l l' -> Permutation (concat (map snd l)) (concat (map snd l')).
Proof.
induction 1 as [|x l l' _ IH|x y l|l l' l'' _ IH1 _ IH2]; cbn [map concat].
- reflexivity.
- apply Permutation_app_head, IH.
- rewrite !app_assoc. apply Permutation_app_tail, Permutation_app_comm.
- etransitivity; eassumption.
Qed.

Lemma bucket_append_Permutation by_date k s :
  Permutation (concat (map snd (bucket_append by_date k s))) (s :: concat (map snd by_date)).
Proof.
induction by_date as [|[k' b'] rest IH]; cbn [bucket_append map snd concat].
- reflexivity.
- destruct (String.eqb k' k); cbn [map snd concat].
  + rewrite <- app_assoc. cbn [app]. symmetry. apply Permutation_middle.
  + rewrite IH. symmetry. apply Permutation_middle.
Qed.

Lemma bucket_append_nonempty by_date k s :
  Forall (fun kb => snd kb <> []) by_date ->
  Forall (fun kb => snd kb <> []) (bucket_append by_date k s).
Proof.
induction 1 as [|[k' b'] rest Hb Hrest IH]; cbn [bucket_append].
- repeat constructor. discriminate.
- destruct (String.eqb k' k); constructor; try assumption.
  cbn [snd]. destruct b'; discriminate.
Qed.

Lemma silent_date_key_of s : silent (date_key_of s).
Proof.
unfold date_key_of. apply silent_bind.
- unfold py_item. destruct (s !! "created"); [apply silent_ret|apply silent_raise].
- intros c. destruct (truthy c); [|apply silent_ret].
  destruct c; solve [apply silent_ret | apply silent_raise].
Qed.

Lemma group_loop_holds sessions : forall by_date w res,
  group_loop by_date sessions = (w, Ok res) ->
  w = []
  /\ Permutation (concat (map snd res)) (concat (map snd by_date) ++ sessions)
  /\ (Forall (fun kb => snd kb <> []) by_date -> Forall (fun kb => snd kb <> []) res).
Proof.
induction sessions as [|s sessions IH]; intros bd w res H.
- injection H as <- <-. rewrite app_nil_r. auto.
- cbn [group_loop] in H. bind_inv H.
  pose proof (silent_date_key_of s _ _ E) as ->.
  apply IH in H as (-> & Hperm & Hne). subst w. split; [reflexivity|]. split.
  + rewrite Hperm, bucket_append_Permutation. cbn [app]. apply Permutation_middle.
  + intros Hbd. apply Hne, bucket_append_nonempty, Hbd.
Qed.

Lemma silent_sort_key_of s : silent (sort_key_of s).
Proof.
unfold sort_key_of. apply silent_bind.
- unfold py_item. destruct (s !! "created"); [apply silent_ret|apply silent_raise].
- intros c. apply silent_bind.
  + destruct c; cbn [normalize_datetime]; try apply silent_ret; try apply silent_raise.
    destruct (tzinfo t); [|apply silent_ret].
    apply silent_bind; [apply silent_lift|intros; apply silent_ret].
  + intros v. destruct v; apply silent_ret.
Qed.

Lemma keyed_keys_of l : Forall keyed l -> keys_of (map snd l) (map fst l).
Proof. induction 1 as [|p l Hp _ IH]; cbn [map]; constructor; assumption. Qed.

(** A sorted bucket: the same sessions, by ascending normalized
    timestamp. *)
Lemma sort_bucket_holds bucket w sorted :
  sort_bucket bucket = (w, Ok sorted) ->
  w = []
  /\ Permutation sorted bucket
  /\ exists keys, keys_of sorted keys
                  /\ StronglySorted (fun a b => Datetime.ltb b a = false) keys.
Proof.
unfold sort_bucket. intros H. bind_inv H. injection H as <- <-.
pose proof (silent_mapM sort_key_of bucket silent_sort_key_of _ _ E) as ->.
subst w. split; [reflexivity|].
apply mapM_ok, keyed_combine in E as [Hk Hb].
set (L := sort_pairs Datetime.ltb (combine a bucket)).
assert (HL : Permutation L (combine a bucket)) by apply sort_pairs_Permutation.
split.
- transitivity (map snd (combine a bucket)); [apply Permutation_map, HL|].
  rewrite Hb. reflexivity.
- exists (map fst L). split.
  + apply keyed_keys_of. eapply Permutation_Forall; [symmetry; exact HL|exact Hk].
  + apply (StronglySorted_map_fst (fun a b => Datetime.ltb b a = false)).
    apply (sort_pairs_ascending Datetime.ltb).
    * intros x y. apply lex_ltb_asym.
    * intros x y z. apply lex_ltb_negtrans.
Qed.

(** The three stages of the grouper. *)
Lemma group_sessions_by_date_stages sessions w buckets :
  group_sessions_by_date sessions = (w, Ok buckets) ->
  w = []
  /\ exists by_date sorted,
      group_loop [] sessions = ([], Ok by_date)
      /\ grouped sessions by_date
      /\ Forall2 (fun kb kb' => fst kb' = fst kb
                                /\ exists w', sort_bucket (snd kb) = (w', Ok (snd kb')))
                 by_date sorted
      /\ buckets = sort_pairs String.ltb sorted.
Proof.
unfold group_sessions_by_date. intros H. bind_inv H. bind_inv H. injection H as <- <-.
pose proof (group_loop_holds _ _ _ _ E) as (-> & _ & _).
assert (Hg : grouped [] []).
{ split; [constructor|]. split; [intros ? ? []|reflexivity]. }
pose proof (group_loop_grouped _ _ _ _ _ Hg E) as Hgrouped. cbn [app] in Hgrouped.
assert (Hw1 : w2 = []).
{ refine (silent_mapM _ _ _ _ _ E0). intros kb.
  apply silent_bind; [|intros; apply silent_ret].
  intros w' r Hs. unfold sort_bucket in Hs.
  refine (silent_bind _ _ _ _ _ _ Hs); [|intros; apply silent_ret].
  apply silent_mapM, silent_sort_key_of. }
subst. split; [reflexivity|]. exists a, a0. split; [exact E|]. split; [exact Hgrouped|].
split; [|reflexivity].
apply mapM_ok in E0. eapply Forall2_impl; [exact E0|].
intros kb kb' [w' Hkb]. bind_inv Hkb. injection Hkb as _ <-. cbn [fst snd]. eauto.
Qed.

Lemma Forall2_sorted_Permutation (by_date sorted : list (string * list session)) :
  Forall2 (fun kb kb' => fst kb' = fst kb
                         /\ exists w', sort_bucket (snd kb) = (w', Ok (snd kb')))
          by_date sorted ->
  map fst sorted = map fst by_date
  /\ Permutation (concat (map snd sorted)) (concat (map snd by_date)).
Proof.
induction 1 as [|kb kb' l l' [Hk [w' Hs]] _ [IH1 IH2]]; [split; reflexivity|].
cbn [map concat]. rewrite Hk, IH1. split; [reflexivity|].
apply sort_bucket_holds in Hs as (_ & Hp & _). apply Permutation_app; assumption.
Qed.

(** The buckets partition the input: together they hold the sessions of
    the input, each once; no bucket is empty, and a session is in the
    bucket of its own date key. *)
Theorem buckets_partition_sessions sessions w buckets :
  group_sessions_by_date sessions = (w, Ok buckets) ->
  Permutation (concat (map snd buckets)) sessions
  /\ Forall (fun kb => snd kb <> []
                       /\ Forall (fun s => in_bucket (fst kb) s = true) (snd kb)) buckets.
Proof.
intros H. apply group_sessions_by_date_stages in H
  as (_ & by_date & sorted & Hloop & (_ & Hin & _) & Hsorted & ->).
pose proof (group_loop_holds _ _ _ _ Hloop) as (_ & Hperm & Hne).
destruct (Forall2_sorted_Permutation _ _ Hsorted) as [_ Hps].
split.
- rewrite (Permutation_concat_map _ _ (sort_pairs_Permutation String.ltb sorted)).
  rewrite Hps, Hperm. reflexivity.
- eapply Permutation_Forall; [symmetry; apply sort_pairs_Permutation|].
  apply List.Forall_forall. intros kb' Hkb'.
  destruct (Forall2_In_r _ _ _ _ Hsorted Hkb') as ([d b] & Hdb & Hk & w' & Hs).
  cbn [fst snd] in *. apply sort_bucket_holds in Hs as (_ & Hp & _).
  assert (Hne' : Forall (fun kb : string * list session => snd kb <> []) by_date)
    by (apply Hne; constructor).
  rewrite List.Forall_forall in Hne'. specialize (Hne' _ Hdb). cbn [snd] in Hne'.
  split.
  + intros Hnil. rewrite Hnil in Hp. apply Permutation_nil in Hp. contradiction.
  + eapply Permutation_Forall; [symmetry; exact Hp|].
    rewrite Hk, (Hin _ _ Hdb). apply List.Forall_forall. intros s Hs.
    apply filter_In in Hs. tauto.
Qed.

Lemma buckets_partition_sessions_witness :
  Permutation
    (concat (map snd [("2024-01-01", [session_C; session_A; session_B]);
                      ("Unknown", [session_V; session_U])]))
    [session_V; session_A; session_B; session_C; session_U]
  /\ Forall (fun kb => snd kb <> []
                       /\ Forall (fun s => in_bucket (fst kb) s = true) (snd kb))
            [("2024-01-01", [session_C; session_A; session_B]);
             ("Unknown", [session_V; session_U])].
Proof.
apply (buckets_partition_sessions
         [session_V; session_A; session_B; session_C; session_U] []).
vm_compute. reflexivity.
Defined.

Lemma ascending_strict (l : list (string * list session)) :
  ascending String.ltb l -> List.NoDup (map fst l) ->
  StronglySorted (fun a b => String.ltb a b = true) (map fst l).
Proof.
induction 1 as [|x l _ IH Hx]; cbn [map]; intros Hnd; [constructor|].
inversion Hnd as [|? ? Hnotin Hnd']; subst.
constructor; [exact (IH Hnd')|].
apply Forall_map. apply List.Forall_forall. intros y Hy.
rewrite List.Forall_forall in Hx. apply string_ltb_total; [exact (Hx _ Hy)|].
intros Heq. apply Hnotin. rewrite Heq. apply in_map, Hy.
Qed.

Lemma bucket_keys_strictly_sorted sessions w buckets :
  group_sessions_by_date sessions = (w, Ok buckets) ->
  StronglySorted (fun a b => String.ltb a b = true) (map fst buckets).
Proof.
intros H. apply group_sessions_by_date_stages in H
  as (_ & by_date & sorted & _ & (Hnd & _ & _) & Hsorted & ->).
destruct (Forall2_sorted_Permutation _ _ Hsorted) as [Hkeys _].
apply ascending_strict.
- apply sort_pairs_ascending; [apply string_ltb_asym|apply string_ltb_negtrans].
- eapply Permutation_NoDup; [apply Permutation_map; symmetry; apply sort_pairs_Permutation|].
  rewrite Hkeys. exact Hnd.
Qed.

(** The buckets come back in strictly ascending order of their keys, so no
    key occurs twice. *)
Theorem bucket_keys_ascending sessions w buckets :
  group_sessions_by_date sessions = (w, Ok buckets) ->
  StronglySorted (fun a b => String.ltb a b = true) (map fst buckets).
Proof. apply bucket_keys_strictly_sorted. Qed.

Lemma bucket_keys_ascending_witness :
  StronglySorted (fun a b => String.ltb a b = true)
    (map fst [("2024-01-01", [session_C; session_A; session_B]);
              ("Unknown", [session_V; session_U])]).
Proof.
apply (bucket_keys_ascending [session_V; session_A; session_B; session_C; session_U] []).
vm_compute. reflexivity.
Defined.

(** Inside a bucket the sessions stand by ascending normalized timestamp:
    none is strictly earlier than one before it. *)
Theorem bucket_sorted_by_timestamp sessions w buckets date_key bucket :
  group_sessions_by_date sessions = (w, Ok buckets) ->
  In (date_key, bucket) buckets ->
  exists keys, keys_of bucket keys
               /\ StronglySorted (fun a b => Datetime.ltb b a = false) keys.
Proof.
intros H Hin. apply group_sessions_by_date_stages in H
  as (_ & by_date & sorted & _ & _ & Hsorted & ->).
apply sort_pairs_In in Hin.
destruct (Forall2_In_r _ _ _ _ Hsorted Hin) as ([d b] & _ & _ & w' & Hs).
cbn [snd] in Hs. apply sort_bucket_holds in Hs as (_ & _ & Hkeys). exact Hkeys.
Qed.

Lemma bucket_sorted_by_timestamp_witness :
  exists keys, keys_of [session_C; session_A; session_B] keys
               /\ StronglySorted (fun a b => Datetime.ltb b a = false) keys.
Proof.
apply (bucket_sorted_by_timestamp
         [session_V; session_A; session_B; session_C; session_U] []
         [("2024-01-01", [session_C; session_A; session_B]);
          ("Unknown", [session_V; session_U])]
         "2024-01-01").
- vm_compute. reflexivity.
- left. reflexivity.
Defined.

(** ** Date grouper: the [Unknown] bucket *)

Lemma digit_before_U z : Ascii.compare (Datetime.digit z) "U" = Lt.
Proof.
unfold Datetime.digit.
assert (H : (Z.to_nat (z mod 10) < 10)%nat) by (pose proof (Z.mod_pos_bound z 10); lia).
remember (Z.to_nat (z mod 10)) as n eqn:En. clear En.
do 10 (destruct n as [|n]; [reflexivity|]). lia.
Qed.

(** A date key stands before the word [Unknown]. *)
Lemma date_before_Unknown t : String.ltb (Datetime.strftime_date t) "Unknown" = true.
Proof.
unfold Datetime.strftime_date, Datetime.pad4. rewrite append_cons.
unfold String.ltb. cbn [String.compare]. rewrite digit_before_U. reflexivity.
Qed.

Lemma date_key_of_value s w k :
  date_key_of s = (w, Ok k) -> k = "Unknown" \/ exists t, k = Datetime.strftime_date t.
Proof.
unfold date_key_of. intros H. bind_inv H.
destruct (truthy a); [|injection H as _ <-; left; reflexivity].
destruct a; try discriminate H. injection H as _ <-. right. eauto.
Qed.

Lemma StronglySorted_after {A} (R : A -> A -> Prop) l1 x l2 :
  StronglySorted R (l1 ++ x :: l2) -> Forall (R x) l2.
Proof.
induction l1 as [|y l1 IH]; cbn [app]; intros H; inversion H; subst; auto.
Qed.

(** Sessions without a [created] value are listed last: the [Unknown]
    bucket, when there is one, is the last bucket. *)
Theorem unknown_bucket_is_last sessions w buckets bucket :
  group_sessions_by_date sessions = (w, Ok buckets) ->
  In ("Unknown", bucket) buckets ->
  exists front, buckets = front ++ [("Unknown", bucket)].
Proof.
intros H Hin.
pose proof (bucket_keys_strictly_sorted _ _ _ H) as Hsorted.
apply group_sessions_by_date_stages in H
  as (_ & by_date & sorted & Hloop & (_ & Hfilter & _) & Hstage & ->).
pose proof (group_loop_holds _ _ _ _ Hloop) as (_ & _ & Hne).
assert (Hne' : Forall (fun kb : string * list session => snd kb <> []) by_date)
  by (apply Hne; constructor).
assert (Hkeys : forall kb, In kb (sort_pairs String.ltb sorted) ->
                           fst kb = "Unknown" \/ exists t, fst kb = Datetime.strftime_date t).
{ intros kb Hkb. apply sort_pairs_In in Hkb.
  destruct (Forall2_In_r _ _ _ _ Hstage Hkb) as ([d b] & Hdb & Hk & _). cbn [fst] in Hk.
  rewrite List.Forall_forall in Hne'. specialize (Hne' _ Hdb). cbn [snd] in Hne'.
  rewrite (Hfilter _ _ Hdb) in Hne'.
  destruct (List.filter (in_bucket d) sessions) as [|s l] eqn:E; [contradiction|].
  assert (Hs : In s (List.filter (in_bucket d) sessions)) by (rewrite E; left; reflexivity).
  apply filter_In in Hs as [_ Hs]. unfold in_bucket in Hs.
  destruct (date_key_of s) as [w' [k|e]] eqn:Ek; [|discriminate].
  apply String.eqb_eq in Hs. subst k. rewrite Hk.
  apply (date_key_of_value _ _ _ Ek). }
apply in_split in Hin as (front & back & Heq).
exists front. rewrite Heq in *. destruct back as [|kb back]; [reflexivity|exfalso].
rewrite map_app in Hsorted. cbn [map] in Hsorted.
apply StronglySorted_after in Hsorted. inversion Hsorted as [|? ? Hlt _]; subst.
cbn [fst] in Hlt.
destruct (Hkeys kb) as [Hu|[t Ht]].
- rewrite in_app_iff. right. right. left. reflexivity.
- rewrite Hu in Hlt. pose proof (string_ltb_asym _ _ Hlt). congruence.
- rewrite Ht in Hlt. apply string_ltb_asym in Hlt.
  rewrite date_before_Unknown in Hlt. discriminate.
Qed.

Lemma unknown_bucket_is_last_witness :
  exists front,
    [("2024-01-01", [session_C; session_A; session_B]); ("Unknown", [session_V; session_U])]
    = front ++ [("Unknown", [session_V; session_U])].
Proof.
apply (unknown_bucket_is_last [session_V; session_A; session_B; session_C; session_U] []).
- vm_compute. reflexivity.
- right. left. reflexivity.
Defined.

(** ** Date grouper: inputs it goes through *)

Lemma date_key_of_groupable s : groupable s = true -> exists k, date_key_of s = ret k.
Proof.
unfold groupable, date_key_of, py_item.
destruct (s !! "created") as [[| | | | | |t]|]; try discriminate; intros _;
  rewrite bind_ret_l; eexists; reflexivity.
Qed.

Lemma sort_key_of_groupable s : groupable s = true -> exists t, sort_key_of s = ret t.
Proof.
unfold groupable, sort_key_of, py_item.
destruct (s !! "created") as [[| | | | | |t]|]; try discriminate; rewrite bind_ret_l.
- intros _. eexists. reflexivity.
- cbn [normalize_datetime]. destruct (tzinfo t) as [off|]; [|intros _; eexists; reflexivity].
  intros H. apply andb_true_iff in H as [H1 H2]. apply Z.leb_le in H1, H2.
  unfold Datetime.to_naive_utc.
  rewrite (proj2 (Z.ltb_ge _ _) H1), (proj2 (Z.ltb_ge _ _) H2). eexists. reflexivity.
Qed.

Lemma group_loop_groupable sessions : forall by_date,
  Forall (fun s => groupable s = true) sessions ->
  exists res, group_loop by_date sessions = ret res.
Proof.
induction sessions as [|s sessions IH]; intros bd H; [eexists; reflexivity|].
inversion H as [|? ? Hs Hrest]; subst.
destruct (date_key_of_groupable s Hs) as [k Hk].
cbn [group_loop]. rewrite Hk, bind_ret_l. apply IH, Hrest.
Qed.

(** The grouper returns, and prints nothing, whenever every session has a
    [created] value that is absent or a timestamp that stays in range when
    taken to UTC. *)
Theorem groupable_sessions_are_grouped sessions :
  forallb groupable sessions = true ->
  exists buckets, group_sessions_by_date sessions = ([], Ok buckets).
Proof.
intros H. assert (Hall : Forall (fun s => groupable s = true) sessions).
{ apply List.Forall_forall. apply forallb_forall, H. }
destruct (group_loop_groupable sessions [] Hall) as [by_date Hloop].
assert (Hg : grouped [] []).
{ split; [constructor|]. split; [intros ? ? []|reflexivity]. }
pose proof (group_loop_grouped _ _ _ _ _ Hg Hloop) as (_ & Hfilter & _). cbn [app] in Hfilter.
assert (Hsort : Forall (fun kb : string * list session =>
                          exists y, bind (sort_bucket (snd kb)) (fun sorted => ret (fst kb, sorted))
                                    = ret y) by_date).
{ apply List.Forall_forall. intros [d b] Hdb. cbn [fst snd].
  assert (Hb : Forall (fun s => exists t, sort_key_of s = ret t) b).
  { rewrite (Hfilter _ _ Hdb). apply List.Forall_forall. intros s Hs.
    apply filter_In in Hs as [Hs _]. apply sort_key_of_groupable.
    rewrite List.Forall_forall in Hall. apply Hall, Hs. }
  destruct (mapM_ret _ _ Hb) as (keys & Hkeys & _).
  unfold sort_bucket. rewrite Hkeys, !bind_ret_l. eexists. reflexivity. }
destruct (mapM_ret _ _ Hsort) as (sorted & Hsorted & _).
unfold group_sessions_by_date. rewrite Hloop, bind_ret_l, Hsorted, bind_ret_l.
eexists. reflexivity.
Qed.

Lemma groupable_sessions_are_grouped_witness :
  exists buckets,
    group_sessions_by_date [session_V; session_A; session_B; session_C; session_U]
    = ([], Ok buckets).
Proof.
apply (groupable_sessions_are_grouped [session_V; session_A; session_B; session_C; session_U]).
vm_compute. reflexivity.
Defined.

(** ** Path decoder: what decoding can change *)








Section DecoderShape.
Variable path_exists : string -> result bool.



End DecoderShape.


(** ** Project path display *)

Lemma drop_length_append home rest :
  PyStr.drop (String.length home) (home +:+ rest) = rest.
Proof.
induction home as [|c home IH]; [destruct rest; reflexivity|].
rewrite append_cons. cbn [String.length PyStr.drop]. exact IH.
Qed.

(** A path under the home directory that is not an encoded name is shown
    with [~] in place of the home directory. *)
Theorem format_under_home home path_exists rest :
  PyStr.startswith "-" (home +:+ rest) = false ->
  format_project_path home path_exists (home +:+ rest) = ret ("~" +:+ rest).
Proof.
intros H. unfold format_project_path. rewrite H, bind_ret_l.
rewrite startswith_append, drop_length_append. reflexivity.
Qed.

Lemma format_under_home_witness :
  format_project_path "/home/u" disk_one ("/home/u" +:+ "/my/app")
  = ret ("~" +:+ "/my/app").
Proof. apply (format_under_home "/home/u" disk_one "/my/app"). reflexivity. Defined.

Lemma decode_encode_no_merge path_exists path :
  PyStr.startswith "/" path = true ->
  Forall (fun seg => PyStr.contains "-" seg = false) (segments path) ->
  no_merged_path path_exists [] (segments path) ->
  decode_project_dir_name path_exists (encode_path path) = ret path.
Proof.
intros Habs Hseg Hmerge. unfold segments in *.
destruct path as [|c rest]; [discriminate|].
rewrite startswith_char in Habs. apply Ascii.eqb_eq in Habs. subst c.
cbn [PyStr.drop] in *.
unfold decode_project_dir_name. rewrite encode_path_cons.
cbn [Ascii.eqb Bool.eqb PyStr.startswith PyStr.drop negb andb].
rewrite (split_encode_path _ (segments_without_delimiter _ Hseg)).
rewrite (decode_loop_no_merge _ _ _ Hmerge), bind_ret_l. cbn [app].
rewrite (join_split "/" rest). reflexivity.
Qed.

(** The encoded name of a path under the home directory is shown as the
    path with [~] for the home directory, when no segment holds a [-] and
    for no two neighbouring segments does the path that joins them by [_]
    exist. *)
Theorem format_encoded_under_home home path_exists rest :
  PyStr.startswith "/" (home +:+ rest) = true ->
  Forall (fun seg => PyStr.contains "-" seg = false) (segments (home +:+ rest)) ->
  no_merged_path path_exists [] (segments (home +:+ rest)) ->
  format_project_path home path_exists (encode_path (home +:+ rest))
  = ret ("~" +:+ rest).
Proof.
intros Habs Hseg Hmerge. unfold format_project_path.
assert (Henc : PyStr.startswith "-" (encode_path (home +:+ rest)) = true).
{ destruct (home +:+ rest) as [|c s]; [discriminate|].
  rewrite startswith_char in Habs. apply Ascii.eqb_eq in Habs. subst c.
  rewrite encode_path_cons. reflexivity. }
rewrite Henc, (decode_encode_no_merge _ _ Habs Hseg Hmerge), bind_ret_l.
rewrite startswith_append, drop_length_append. reflexivity.
Qed.

Lemma format_encoded_under_home_witness :
  format_project_path "/home/u" disk_one (encode_path ("/home/u" +:+ "/my/app"))
  = ret ("~" +:+ "/my/app").
Proof.
apply (format_encoded_under_home "/home/u" disk_one "/my/app").
- reflexivity.
- vm_compute. repeat constructor.
- intros pre a b post H.
  change (segments ("/home/u" +:+ "/my/app")) with ["home"; "u"; "my"; "app"] in H.
  destruct pre as [|p1 [|p2 [|p3 pre]]]; cbn [app] in H;
    simplify_eq; try reflexivity.
  exfalso. destruct pre as [|p4 [|p5 pre]]; simplify_eq.
Defined.

Example format_examples :
  format_project_path "/home/u" disk_one "-home-u-my-app" = ret "~/my/app"
  /\ format_project_path "/home/u" disk_both "-home-u-my-app" = ret "~/my_app"
  /\ format_project_path "/home/u" disk_one "/srv/www" = ret "/srv/www"
  /\ format_project_path "/home/u" disk_one "/home/u2/x" = ret "~2/x"
  /\ format_project_path "/home/u" disk_name_max (encode_path long_path)
     = raise OSError.
Proof. repeat split; reflexivity. Qed.
